(** * RLG Projects: the global controller and the overlap classes

    A shallow embedding of the executable parts of the repository that the
    scheduling specification refers to:

    - the classes of the global controller (RLG GLOBAL CONTROLLER v5.4):
      [CulturalManager], [NetworkHandler], [DeepSeekIntegration] and
      [UIManager];
    - the [urgency_levels] table of the overlap calculator
      (api/sadc-openapi.yml, reporting_engine.team_analytics);
    - [memoize] of the charting scripts.

    JavaScript values are an inductive type, objects are finite maps from
    property names to values, and asynchronous code is written in a small
    state-and-exception monad over the observable world: the number of
    [fetch] calls issued, the errors handed to analytics, the timers
    awaited. The network is a parameter: it answers the n-th [fetch]. So is
    the analytics service, which no source file defines. *)

From Stdlib Require Import ZArith String List Lia.
From stdpp Require Import base option strings pretty gmap.

Local Open Scope Z_scope.
Local Open Scope string_scope.
Local Set Warnings "-register-all".

(** * Part I. The model *)

(** ** JavaScript values *)

Module JS.

(** Numbers are restricted to the integers: nothing below looks inside a
    number except to ask whether it is zero. *)
Inductive value : Type :=
| JUndefined
| JNull
| JBool (b : bool)
| JNum (n : Z)
| JStr (s : string)
| JArr (items : list value)
| JObj (props : gmap string value)
| JFun (name : string).

(** An [Error] object: its constructor name and its message. *)
Record error : Type := Err { name : string; message : string }.

(** How a statement list ends, or how a promise settles. *)
Inductive completion (A : Type) : Type :=
| Normal (a : A)
| Throw (e : error).
Arguments Normal {A} a.
Arguments Throw {A} e.

(** ToBoolean of the language: the falsy values are [undefined], [null],
    [false], [0] and the empty string. *)
Definition ToBoolean (v : value) : bool :=
  match v with
  | JUndefined | JNull => false
  | JBool b => b
  | JNum n => negb (Z.eqb n 0)
  | JStr s => negb (String.eqb s "")
  | JArr _ | JObj _ | JFun _ => true
  end.

(** [a || b] *)
Definition or (a b : value) : value := if ToBoolean a then a else b.

(** The function-valued members every ordinary object inherits from
    [Object.prototype]. *)
Definition Object_prototype : gmap string value :=
  list_to_map
    (map (fun n => (n, JFun n))
       ["constructor"; "__defineGetter__"; "__defineSetter__";
        "hasOwnProperty"; "__lookupGetter__"; "__lookupSetter__";
        "isPrototypeOf"; "propertyIsEnumerable"; "toString"; "valueOf";
        "toLocaleString"]).

(** [o[key]] on an ordinary object with own properties [props]: the own
    property, else the inherited one ([__proto__] reads the prototype
    itself), else [undefined]. *)
Definition Get (props : gmap string value) (key : string) : value :=
  match props !! key with
  | Some v => v
  | None =>
      if String.eqb key "__proto__" then JObj Object_prototype
      else default JUndefined (Object_prototype !! key)
  end.

Definition TypeError (msg : string) : error := Err "TypeError" msg.

End JS.

Import JS.

(** ** The observable world and the effect monad *)

(** What a run of the controller can observe and change: the year the
    clock shows, how many [fetch] calls have been issued so far, the errors
    that [analytics.trackError] took and returned from (oldest first) and
    the delays, in milliseconds, awaited through [setTimeout]. *)
Record World : Type := mkWorld {
  clock_year : Z;
  fetch_calls : nat;
  tracked : list error;
  timers : list Z
}.

(** What [fetch] resolves to: [ok] is the status flag, [json] is how the
    promise of [response.json()] settles. *)
Record Response : Type := mkResponse {
  ok : bool;
  json : completion value
}.

(** The surroundings the controller runs in. [fetch_reply n url init] is
    how the n-th [fetch] of the run settles (a rejection is a network
    error or a timeout); [JSON_stringify] is the built-in serialiser, which
    throws on a value it cannot serialise. *)
Record Runtime : Type := mkRuntime {
  fetch_reply : nat -> string -> gmap string value -> completion Response;
  JSON_stringify : value -> completion value
}.

(** A computation reads and updates the world and ends normally or by a
    throw (for an async function: a fulfilled or a rejected promise). *)
Definition Eff (A : Type) : Type := World -> completion A * World.

Module Eff.

Definition ret {A} (a : A) : Eff A := fun w => (Normal a, w).

Definition bind {A B} (m : Eff A) (k : A -> Eff B) : Eff B :=
  fun w =>
    match m w with
    | (Normal a, w') => k a w'
    | (Throw e, w') => (Throw e, w')
    end.

Definition throw {A} (e : error) : Eff A := fun w => (Throw e, w).

(** [try { m }]: the completion of [m] as a value, for the handler to
    inspect. *)
Definition try {A} (m : Eff A) : Eff (completion A) :=
  fun w => let (c, w') := m w in (Normal c, w').

(** Awaiting, or returning from an async function, a promise that settles
    as [c]. *)
Definition settle {A} (c : completion A) : Eff A := fun w => (c, w).

End Eff.

#[global] Instance Eff_ret : MRet Eff := @Eff.ret.
#[global] Instance Eff_bind : MBind Eff := fun A B k m => Eff.bind m k.

(** The world after one more [fetch]. *)
Definition fetched (w : World) : World :=
  mkWorld (clock_year w) (S (fetch_calls w)) (tracked w) (timers w).

(** The world after one more [fetch] and a report of [e] that analytics
    took. *)
Definition reported (w : World) (e : error) : World :=
  mkWorld (clock_year w) (S (fetch_calls w)) (tracked w ++ [e]) (timers w).

(** ** CulturalManager: state and [translate] *)

(** [localeSettings]: the fields the controller reads. A field that is
    absent reads as [undefined]; [translations], when present, is an
    ordinary object from keys to translations. *)
Record LocaleSettings : Type := mkLocaleSettings {
  locale : value;
  timezone : value;
  currency : value;
  translations : option (gmap string value)
}.

(** The fields of a [CulturalManager]. [localeSettings] is [None] when the
    field holds [undefined]. *)
Record CulturalManager : Type := mkCulturalManager {
  currentRegion : string;
  localeSettings : option LocaleSettings;
  holidays : value
}.

(** [constructor()]: region ['GLOBAL'], settings [{}], holidays [[]]. *)
Definition CulturalManager_new : CulturalManager :=
  mkCulturalManager "GLOBAL"
    (Some (mkLocaleSettings JUndefined JUndefined JUndefined None))
    (JArr []).

(** [translate(key)]: [this.localeSettings.translations[key] || key].
    Reading a property of [undefined] throws a [TypeError]. *)
Definition translate (this : CulturalManager) (key : string)
    : completion value :=
  match localeSettings this with
  | None =>
      Throw (TypeError
        "Cannot read properties of undefined (reading 'translations')")
  | Some settings =>
      match translations settings with
      | None =>
          Throw (TypeError
            ("Cannot read properties of undefined (reading '" +:+ key +:+ "')"))
      | Some table => Normal (JS.or (Get table key) (JStr key))
      end
  end.

(** ** The controller's asynchronous methods *)

Section Controller.

Variable rt : Runtime.

(** How the call [RLG.modules.analytics.trackError(error)] completes. No
    source file defines the analytics service ([TelemetryService]), and
    the global [RLG] that leads to it stays uninitialised when its
    constructor throws: the call may return, or throw, a
    [ReferenceError] for one. *)
Variable analytics : error -> completion unit.

(** [fetch(url, init)] *)
Definition fetch (url : string) (init : gmap string value) : Eff Response :=
  fun w => (fetch_reply rt (fetch_calls w) url init, fetched w).

(** [await new Promise(resolve => setTimeout(resolve, ms))] *)
Definition setTimeout (ms : Z) : Eff unit :=
  fun w =>
    (Normal tt,
     mkWorld (clock_year w) (fetch_calls w) (tracked w) (timers w ++ [ms])).

(** [new Date().getFullYear()] *)
Definition getFullYear : Eff Z := fun w => (Normal (clock_year w), w).

(** [RLG.modules.analytics.trackError(error)]: as [analytics] completes;
    an error it returned from is on record. *)
Definition trackError (e : error) : Eff unit :=
  fun w =>
    match analytics e with
    | Normal _ =>
        (Normal tt,
         mkWorld (clock_year w) (fetch_calls w) (tracked w ++ [e]) (timers w))
    | Throw thrown => (Throw thrown, w)
    end.

(** The [init] object [{ method, body, ...options }]: the spread comes
    last, so a key of [options] wins. *)
Definition request_init (method : string) (body : value)
    (options : gmap string value) : gmap string value :=
  options ∪ <["method" := JStr method]> {["body" := body]}.

(** [data ? JSON.stringify(data) : null] *)
Definition request_body (data : value) : completion value :=
  if ToBoolean data then JSON_stringify rt data else Normal JNull.

(** The [try] block of [fetchWithRetry]. It ends normally with the promise
    of [response.json()], which the block returns without awaiting, or
    with what the [catch] clause receives. *)
Definition attempt (url method : string) (data : value)
    (options : gmap string value) : Eff (completion value) :=
  body ← Eff.settle (request_body data);
  response ← fetch url (request_init method body options);
  if negb (ok response) then Eff.throw (Err "Error" "Network Error")
  else mret (json response).

(** [async fetchWithRetry(url, method, data, options = {}, retries = 3)] *)
Fixpoint fetchWithRetry (url method : string) (data : value)
    (options : gmap string value) (retries : nat) : Eff value :=
  r ← Eff.try (attempt url method data options);
  match r with
  | Normal promise => Eff.settle promise
  | Throw error =>
      match retries with
      | S retries' =>
          setTimeout 1000;;
          fetchWithRetry url method data options retries'
      | O => Eff.throw error
      end
  end.

(** [get(url, options)] and [post(url, data, options)]: [retries] is
    omitted and so is 3. *)
Definition get (url : string) (options : gmap string value) : Eff value :=
  fetchWithRetry url "GET" JNull options 3.

Definition post (url : string) (data : value)
    (options : gmap string value) : Eff value :=
  fetchWithRetry url "POST" data options 3.

(** The address of the public-holiday service for a year and a region. *)
Definition holidays_url (year : Z) (region : string) : string :=
  "https://date.nager.at/api/v3/PublicHolidays/"
    +:+ pretty year +:+ "/" +:+ region.

(** [async loadHolidayData()]: one plain [fetch] (no [init] object), then
    [res.json()]; the assignment to [this.holidays] happens only when both
    promises fulfil, and the [catch] clause hands any rejection to
    analytics and, when that call returns, returns normally. *)
Definition loadHolidayData (this : CulturalManager) : Eff CulturalManager :=
  r ← Eff.try (year ← getFullYear;
               res ← fetch (holidays_url year (currentRegion this)) ∅;
               Eff.settle (json res));
  match r with
  | Normal parsed =>
      mret (mkCulturalManager (currentRegion this) (localeSettings this)
              parsed)
  | Throw error => trackError error;; mret this
  end.

End Controller.

(** ** The overlap calculator's urgency levels *)

Module Overlap.

Inductive urgency : Type := red | amber | green.

(** A band of overlap durations, in seconds. *)
Inductive band : Type :=
| Below (limit : Z)
| Between (low high : Z)
| Above (limit : Z).

Definition hours (h : Z) : Z := h * 3600.

(** The configured table, as api/sadc-openapi.yml gives it:
    [red: "<1h_overlap"], [amber: "1-2h_overlap"], [green: ">2h_overlap"]. *)
Definition urgency_levels : list (urgency * band) :=
  [ (red, Below (hours 1));
    (amber, Between (hours 1) (hours 2));
    (green, Above (hours 2)) ].

(** Modelled from the spec: the thresholds are configuration that a
    request may override; the sources hold the default table only. This is
    the table for the thresholds [red_below] and [green_from]. *)
Definition levels (red_below green_from : Z) : list (urgency * band) :=
  [ (red, Below red_below);
    (amber, Between red_below green_from);
    (green, Above green_from) ].

(** Modelled from the spec: the sources hold the table only; the function
    that reads a duration against it is missing, and the strings of the
    table do not say which band owns a threshold itself. The spec does, by
    the boundary values it wants verified: 59m59s is red and 1h00m00s is
    amber, 1h59m59s is amber and 2h00m00s is green. So a band holds its
    lower threshold and not its upper one. *)
Definition within (b : band) (d : Z) : bool :=
  match b with
  | Below limit => (d <? limit)%Z
  | Between low high => (low <=? d)%Z && (d <? high)%Z
  | Above limit => (limit <=? d)%Z
  end.

(** Modelled from the spec: the class of an overlap that lasts [d] seconds
    is that of the first band of the table holding [d]; see [within]. *)
Definition classify (table : list (urgency * band)) (d : Z)
    : option urgency :=
  fst <$> find (fun level => within (snd level) d) table.

(** C1 as it is stated, of a classifier [f] under the default thresholds:
    its rule for the three classes, and its four boundary values. *)
Definition stated_rule (f : Z -> option urgency) : Prop :=
  forall d : Z,
    (f d = Some red <-> (d < hours 1)%Z) /\
    (f d = Some amber <-> (hours 1 <= d <= hours 2)%Z) /\
    (f d = Some green <-> (hours 2 < d)%Z).

Definition stated_values (f : Z -> option urgency) : Prop :=
  f (59 * 60 + 59) = Some red /\
  f (hours 1) = Some amber /\
  f (hours 1 + 59 * 60 + 59) = Some amber /\
  f (hours 2) = Some green.

End Overlap.

(** ** Vocabulary of the statements *)

(** An attempt fails when [fetch] rejects or the response is not [ok]. *)
Definition failed (answer : completion Response) : bool :=
  match answer with
  | Throw _ => true
  | Normal response => negb (ok response)
  end.

(** What the [catch] clause receives from a failed attempt. *)
Definition failure (answer : completion Response) : error :=
  match answer with
  | Throw e => e
  | Normal _ => Err "Error" "Network Error"
  end.

(** How the network settles the i-th [fetch] that [fetchWithRetry] issues
    from world [w], the request carrying [body]. *)
Definition reply (rt : Runtime) (url method : string)
    (options : gmap string value) (body : value) (w : World) (i : nat)
    : completion Response :=
  fetch_reply rt (fetch_calls w + i) url (request_init method body options).

(** A key names an inherited member when it is found on [Object.prototype]
    rather than among the own properties. *)
Definition inherited (key : string) : bool :=
  String.eqb key "__proto__" || bool_decide (is_Some (Object_prototype !! key)).

(** How the holiday request issued from world [w] settles: the parsed
    body, or the rejection of [fetch] or of [json()]. The response's [ok]
    flag is not consulted. *)
Definition holiday_answer (rt : Runtime) (this : CulturalManager) (w : World)
    : completion value :=
  match fetch_reply rt (fetch_calls w)
          (holidays_url (clock_year w) (currentRegion this)) ∅ with
  | Normal response => json response
  | Throw e => Throw e
  end.

(** How a call of [loadHolidayData] ends, issued from world [w], when its
    request settled as [answer]. *)
Definition load_outcome (analytics : error -> completion unit)
    (this : CulturalManager) (w : World) (answer : completion value)
    : completion CulturalManager * World :=
  match answer with
  | Normal parsed =>
      (Normal (mkCulturalManager (currentRegion this) (localeSettings this)
                 parsed),
       fetched w)
  | Throw e =>
      match analytics e with
      | Normal _ => (Normal this, reported w e)
      | Throw thrown => (Throw thrown, fetched w)
      end
  end.

(** Two consecutive calls of [loadHolidayData]: the manager after the
    first and after the second. *)
Definition load_twice (rt : Runtime) (analytics : error -> completion unit)
    (this : CulturalManager) : Eff (CulturalManager * CulturalManager) :=
  first ← loadHolidayData rt analytics this;
  second ← loadHolidayData rt analytics first;
  mret (first, second).

(** ** Sample surroundings *)

(** An analytics service that takes every error. *)
Definition recording : error -> completion unit := fun _ => Normal tt.

(** The sources as they stand: [RLG] is not initialised, and reading it
    throws. *)
Definition RLG_uninitialised : error :=
  Err "ReferenceError" "Cannot access 'RLG' before initialization".

Definition uninitialised : error -> completion unit :=
  fun _ => Throw RLG_uninitialised.

Definition timeout_error : error :=
  Err "TimeoutError" "The operation timed out".

Definition pong : Response := mkResponse true (Normal (JStr "pong")).

Definition freedom_day : value :=
  JObj (<["date" := JStr "2026-04-27"]> {["localName" := JStr "Freedom Day"]}).

(** Times out twice, then answers. *)
Definition flaky_service : Runtime :=
  mkRuntime
    (fun n _ _ => if (n <? 2)%nat then Throw timeout_error else Normal pong)
    (fun _ => Normal (JStr "{}")).

(** Times out three times, then answers with a server error. *)
Definition dead_service : Runtime :=
  mkRuntime
    (fun n _ _ =>
       if (n <? 3)%nat then Throw timeout_error
       else Normal (mkResponse false (Normal JNull)))
    (fun _ => Normal (JStr "{}")).

(** Times out on the first request and answers the second one with the
    holiday list. *)
Definition waking_service : Runtime :=
  mkRuntime
    (fun n _ _ =>
       if (n <? 1)%nat then Throw timeout_error
       else Normal (mkResponse true (Normal (JArr [freedom_day]))))
    (fun _ => Normal (JStr "{}")).

(** Answers every request with the holiday list. *)
Definition steady_service : Runtime :=
  mkRuntime
    (fun _ _ _ => Normal (mkResponse true (Normal (JArr [freedom_day]))))
    (fun _ => Normal (JStr "{}")).

(** Answers the first request and times out on every later one. *)
Definition fading_service : Runtime :=
  mkRuntime
    (fun n _ _ => if (n <? 1)%nat then Normal pong else Throw timeout_error)
    (fun _ => Normal (JStr "{}")).

(** Never answers. *)
Definition silent_service : Runtime :=
  mkRuntime (fun _ _ _ => Throw timeout_error) (fun _ => Normal (JStr "{}")).

Definition fresh_world : World := mkWorld 2026 0 [] [].

(** A manager whose settings carry the translations [table]. *)
Definition localised (region : string) (table : gmap string value)
    : CulturalManager :=
  mkCulturalManager region
    (Some (mkLocaleSettings (JStr "en-ZA") (JStr "Africa/Johannesburg")
             (JStr "ZAR") (Some table)))
    (JArr []).

(** A manager for South Africa, before and after a successful load. *)
Definition south_africa : CulturalManager :=
  mkCulturalManager "ZA" (localeSettings CulturalManager_new) (JArr []).

Definition south_africa_loaded : CulturalManager :=
  mkCulturalManager "ZA" (localeSettings CulturalManager_new)
    (JArr [freedom_day]).

(** ** NetworkHandler: the offline queue *)

(** An entry of [this.queue]: what [processQueue] reads off it. *)
Record QueuedRequest : Type := mkQueuedRequest {
  q_url : string;
  q_method : string;
  q_data : value
}.

Record NetworkHandler : Type := mkNetworkHandler {
  queue : list QueuedRequest;
  online : bool
}.

(** [constructor()]: an empty queue, [online] as [navigator.onLine] says. *)
Definition NetworkHandler_new (onLine : bool) : NetworkHandler :=
  mkNetworkHandler [] onLine.

(** [pauseOperations()] *)
Definition pauseOperations (this : NetworkHandler) : NetworkHandler :=
  mkNetworkHandler (queue this) false.

(** The [while] loop of [processQueue]: while the queue is not empty and
    the handler is online, shift the head off and start
    [fetchWithRetry(url, method, data)] for it without awaiting it. The
    result is the queue that is left and the requests started, in order. *)
Fixpoint processQueue_loop (online : bool) (queue started : list QueuedRequest)
    : list QueuedRequest * list QueuedRequest :=
  match queue with
  | [] => (queue, started)
  | head :: rest =>
      if online then processQueue_loop online rest (started ++ [head])%list
      else (queue, started)
  end.

(** [processQueue()] *)
Definition processQueue (this : NetworkHandler)
    : NetworkHandler * list QueuedRequest :=
  let (rest, started) := processQueue_loop (online this) (queue this) [] in
  (mkNetworkHandler rest (online this), started).

(** [resumeOperations()]: [this.online = true; this.processQueue()]. *)
Definition resumeOperations (this : NetworkHandler)
    : NetworkHandler * list QueuedRequest :=
  processQueue (mkNetworkHandler (queue this) true).

(** The call [processQueue] starts for a queue entry: [options] and
    [retries] are omitted. *)
Definition replay (rt : Runtime) (entry : QueuedRequest) : Eff value :=
  fetchWithRetry rt (q_url entry) (q_method entry) (q_data entry) ∅ 3.

(** ** The rest of the platform *)

(** Built-ins the other methods of the controller use.
    [Response_member r name] is what reading the property [name] of the
    [Response] object [r] gives; [import_module url] is how the promise of
    [import(url)] settles; the two [Intl] constructors take a locale and
    an options object and may throw; [construct_default m] is
    [new m.default()] for a module [m]; [render_component c data] is
    [c.render(data)]. *)
Record Platform : Type := mkPlatform {
  Response_member : Response -> string -> value;
  import_module : string -> completion value;
  Intl_DateTimeFormat : value -> gmap string value -> completion value;
  Intl_NumberFormat : value -> gmap string value -> completion value;
  construct_default : value -> completion value;
  render_component : value -> value -> completion unit
}.

Section ControllerRest.

Variable rt : Runtime.
Variable analytics : error -> completion unit.
Variable pf : Platform.

(** ** DeepSeekIntegration *)

(** The [headers] object of every AI request. *)
Definition AI_headers : value :=
  JObj (<["X-RLG-AI-Key" := JStr "FREE_TIER_V5"]>
          {["Content-Type" := JStr "application/json"]}).

(** The [init] object [{ ...options, headers: {...} }]: the headers come
    last and win. *)
Definition AI_init (options : gmap string value) : gmap string value :=
  <["headers" := AI_headers]> options.

(** [async fetchAI(endpoint, options)]: one [fetch]; the [catch] clause
    hands what the [try] block throws to analytics and, when that call
    returns, throws it again. The promise of [response.json()] is returned
    from inside [try] without being awaited, so its rejection passes the
    [catch] clause by. *)
Definition fetchAI (endpoint : string) (options : gmap string value)
    : Eff value :=
  r ← Eff.try (response ← fetch rt ("https://ai.rlgprojects.io" +:+ endpoint)
                            (AI_init options);
               if negb (ok response) then Eff.throw (Err "Error" "AI API Error")
               else mret (json response));
  match r with
  | Normal promise => Eff.settle promise
  | Throw error => trackError analytics error;; Eff.throw error
  end.

(** The object [generateResponse] serialises, once the global [RLG] has
    been read: [{ prompt, context: { ...context, cultural, compliance } }].
    The cultural manager has no [currentSettings] field, so [cultural]
    reads as [undefined]; [compliance] is the compliance engine's
    [activeRules]. *)
Definition chat_payload (prompt : value) (context : gmap string value)
    (activeRules : value) : value :=
  JObj (<["prompt" := prompt]>
          {["context" :=
              JObj (<["compliance" := activeRules]>
                      (<["cultural" := JUndefined]> context))]}).

(** [async generateResponse(prompt, context)], with [this.chatHistory]
    passed through: the history as the call leaves it is returned beside
    the completion. [activeRules] is how reading [RLG.modules] for the
    payload completes: the compliance engine's rules, or the
    [ReferenceError] of an uninitialised [RLG]. The entry
    [{prompt, response}] is pushed after the awaited [fetchAI] has
    fulfilled. *)
Definition generateResponse (prompt : value) (context : gmap string value)
    (activeRules : completion value) (chatHistory : list (value * value))
    (w : World)
    : (completion value * list (value * value)) * World :=
  match (rules ← Eff.settle activeRules;
         body ← Eff.settle (JSON_stringify rt
                             (chat_payload prompt context rules));
         fetchAI "/chat" (<["method" := JStr "POST"]> {["body" := body]})) w
  with
  | (Normal response, w') =>
      ((Normal response, (chatHistory ++ [(prompt, response)])%list), w')
  | (Throw e, w') => ((Throw e, chatHistory), w')
  end.

(** A conversation: [generateResponse] called for each prompt in turn,
    the caller going on after a rejection. The completions, the history
    at the end and the world at the end. *)
Fixpoint converse (prompts : list (value * gmap string value))
    (activeRules : completion value) (chatHistory : list (value * value))
    (w : World)
    : (list (completion value) * list (value * value)) * World :=
  match prompts with
  | [] => (([], chatHistory), w)
  | (prompt, context) :: rest =>
      let '((c, history'), w') :=
        generateResponse prompt context activeRules chatHistory w in
      let '((cs, final), w'') := converse rest activeRules history' w' in
      ((c :: cs, final), w'')
  end.

(** The address [loadModel] imports a model from. *)
Definition model_url (modelName : string) : string :=
  "https://ai.rlgprojects.io/" +:+ modelName +:+ ".js".

(** [async loadModel(modelName)], with [this.models] passed through. *)
Definition loadModel (modelName : string) (models : gmap string value)
    : completion unit * gmap string value :=
  match import_module pf (model_url modelName) with
  | Normal model => (Normal tt, <[modelName := model]> models)
  | Throw e => (Throw e, models)
  end.

(** [async preloadModels()]: the two loads in one [try] block; the
    [catch] clause writes to the console and returns. *)
Definition preloadModels (models : gmap string value)
    : completion unit * gmap string value :=
  match loadModel "cultural-adaptation-v3" models with
  | (Normal _, models1) =>
      match loadModel "compliance-checker-v5" models1 with
      | (Normal _, models2) => (Normal tt, models2)
      | (Throw _, models2) => (Normal tt, models2)
      end
  | (Throw _, models1) => (Normal tt, models1)
  end.

(** ** CulturalManager: detection and localisation *)

(** [async detectRegionalSettings(userLang)]: the values its two
    assignments store in [this.currentRegion] and [this.localeSettings].
    The awaited [fetch] gives a [Response], and it is the properties
    [region] and [settings] of that object which are read: the body is
    not parsed. Nothing is caught. *)
Definition detectRegionalSettings (userLang : value) : Eff (value * value) :=
  body ← Eff.settle (JSON_stringify rt (JObj {["language" := userLang]}));
  regionData ← fetch rt "/api/region-detection"
                 (<["method" := JStr "POST"]> {["body" := body]});
  mret (JS.or (Response_member pf regionData "region") (JStr "GLOBAL"),
        Response_member pf regionData "settings").

(** The settings object as the typed record: [None] for [undefined],
    a record for an object whose [translations] are absent or an object.
    Other shapes are outside the record. *)
Definition settings_of (v : value) : option (option LocaleSettings) :=
  match v with
  | JUndefined => Some None
  | JObj props =>
      match props !! "translations" with
      | None =>
          Some (Some (mkLocaleSettings (Get props "locale")
                        (Get props "timezone") (Get props "currency") None))
      | Some (JObj table) =>
          Some (Some (mkLocaleSettings (Get props "locale")
                        (Get props "timezone") (Get props "currency")
                        (Some table)))
      | Some _ => None
      end
  | _ => None
  end.

(** The manager that holds the detected values, when they fit the record:
    a region that is a string, settings as [settings_of] reads them. *)
Definition detected (this : CulturalManager) (region settings : value)
    : option CulturalManager :=
  match region, settings_of settings with
  | JStr name, Some fields =>
      Some (mkCulturalManager name fields (holidays this))
  | _, _ => None
  end.

(** [setupLocalization()]: the two formatters it assigns. Reading
    [locale] off undefined settings throws. *)
Definition setupLocalization (this : CulturalManager)
    : completion (value * value) :=
  match localeSettings this with
  | None =>
      Throw (TypeError
        "Cannot read properties of undefined (reading 'locale')")
  | Some settings =>
      match Intl_DateTimeFormat pf (locale settings)
              {["timeZone" := timezone settings]} with
      | Throw e => Throw e
      | Normal dateFormatter =>
          match Intl_NumberFormat pf (locale settings)
                  (<["style" := JStr "currency"]>
                     {["currency" := currency settings]}) with
          | Throw e => Throw e
          | Normal numberFormatter => Normal (dateFormatter, numberFormatter)
          end
      end
  end.

(** [async init(lang)]: detection, then the holidays, then the
    formatters. The result is [None] when the detected values do not fit
    the record, else the manager and its two formatters. *)
Definition init (this : CulturalManager) (lang : value)
    : Eff (option (CulturalManager * (value * value))) :=
  found ← detectRegionalSettings lang;
  match detected this (fst found) (snd found) with
  | None => mret None
  | Some this1 =>
      this2 ← loadHolidayData rt analytics this1;
      formatters ← Eff.settle (setupLocalization this2);
      mret (Some (this2, formatters))
  end.

(** ** UIManager *)

(** [async loadComponent(componentName)], with [this.components] passed
    through: the import and the construction are in one [try] block, and
    the [catch] clause hands the error to analytics. *)
Definition loadComponent (componentName : string)
    (components : gmap string value) (w : World)
    : (completion unit * gmap string value) * World :=
  match
    match import_module pf ("/components/" +:+ componentName +:+ ".js") with
    | Throw e => Throw e
    | Normal module => construct_default pf module
    end
  with
  | Normal component =>
      ((Normal tt, <[componentName := component]> components), w)
  | Throw e =>
      let (reported, w') := trackError analytics e w in
      ((reported, components), w')
  end.

(** [async renderData(data)] for data of type [type], with
    [this.components] passed through. The load is awaited, so what it
    throws ends the call. A type that is still missing after the load
    gives [undefined], and calling [render] on it throws. *)
Definition renderData (type : string) (data : value)
    (components : gmap string value) (w : World)
    : (completion unit * gmap string value) * World :=
  let '((loaded, components'), w') :=
    match components !! type with
    | Some _ => ((Normal tt, components), w)
    | None => loadComponent type components w
    end in
  match loaded with
  | Throw e => ((Throw e, components'), w')
  | Normal _ =>
      match components' !! type with
      | None =>
          ((Throw (TypeError
              "Cannot read properties of undefined (reading 'render')"),
            components'), w')
      | Some component =>
          ((render_component pf component data, components'), w')
      end
  end.

End ControllerRest.

(** ** The charting helpers: memoize *)

Section Memoize.

(** The function wrapped, and [JSON.stringify] on an array of arguments,
    which gives a string or throws. *)
Variable fn : list value -> completion value.
Variable key_of : list value -> completion string.

(** One call of [memoize(fn)] with the arguments [args], the cache passed
    through: [cache.has(key) ? cache.get(key)
    : cache.set(key, fn(...args)).get(key)]. When [fn] throws, [set] is
    not reached. *)
Definition memoized (args : list value) (cache : gmap string value)
    : completion value * gmap string value :=
  match key_of args with
  | Throw e => (Throw e, cache)
  | Normal key =>
      match cache !! key with
      | Some v => (Normal v, cache)
      | None =>
          match fn args with
          | Normal v => (Normal v, <[key := v]> cache)
          | Throw e => (Throw e, cache)
          end
      end
  end.

(** Calls of the memoised function, one after the other. *)
Fixpoint memoized_calls (calls : list (list value))
    (cache : gmap string value)
    : list (completion value) * gmap string value :=
  match calls with
  | [] => ([], cache)
  | args :: rest =>
      let (c, cache') := memoized args cache in
      let (cs, final) := memoized_calls rest cache' in
      (c :: cs, final)
  end.

(** Every cached value is what [fn] gave for some earlier call with that
    key. *)
Definition cache_sound (seen : list (list value))
    (cache : gmap string value) : Prop :=
  forall key v,
    cache !! key = Some v ->
    exists args, In args seen /\ key_of args = Normal key /\ fn args = Normal v.

(** What the call gives without a cache. *)
Definition unmemoized (args : list value) : completion value :=
  match key_of args with
  | Throw e => Throw e
  | Normal _ => fn args
  end.

End Memoize.

(** ** Further sample surroundings *)

(** The network answers, but the serialiser rejects every payload, as it
    does a cyclic one. *)
Definition cyclic_error : error :=
  TypeError "Converting circular structure to JSON".

Definition cyclic_service : Runtime :=
  mkRuntime (fun _ _ _ => Normal pong) (fun _ => Throw cyclic_error).

(** Answers every request with status 200 and a body that is no JSON. *)
Definition syntax_error : error :=
  Err "SyntaxError" "Unexpected token '<' is not valid JSON".

Definition garbled_service : Runtime :=
  mkRuntime (fun _ _ _ => Normal (mkResponse true (Throw syntax_error)))
    (fun _ => Normal (JStr "{}")).

(** Answers every request with status 404 and a body that parses. *)
Definition not_found_body : value :=
  JObj (<["status" := JNum 404]> {["title" := JStr "Not Found"]}).

Definition not_found_service : Runtime :=
  mkRuntime (fun _ _ _ => Normal (mkResponse false (Normal not_found_body)))
    (fun _ => Normal (JStr "{}")).

(** A platform whose [Response] objects have the members [ok] and [json]
    and no others, whose imports fail, and whose formatters and
    components are opaque objects. *)
Definition plain_platform : Platform :=
  mkPlatform
    (fun r name =>
       if String.eqb name "ok" then JBool (ok r)
       else if String.eqb name "json" then JFun "json"
       else JUndefined)
    (fun _ => Throw (TypeError "Failed to fetch dynamically imported module"))
    (fun _ _ => Normal (JObj ∅))
    (fun _ _ => Normal (JObj ∅))
    (fun _ => Normal (JObj ∅))
    (fun _ _ => Normal tt).

(** A platform on which only the compliance checker can be imported. *)
Definition checker_only_platform : Platform :=
  mkPlatform (Response_member plain_platform)
    (fun url =>
       if String.eqb url (model_url "compliance-checker-v5")
       then Normal (JObj ∅)
       else Throw (TypeError "Failed to fetch dynamically imported module"))
    (Intl_DateTimeFormat plain_platform) (Intl_NumberFormat plain_platform)
    (construct_default plain_platform) (render_component plain_platform).

(** A platform on which every component module loads. *)
Definition component_platform : Platform :=
  mkPlatform (Response_member plain_platform)
    (fun url => Normal (JObj {["default" := JFun url]}))
    (Intl_DateTimeFormat plain_platform) (Intl_NumberFormat plain_platform)
    (fun module => Normal (JObj {["module" := module]}))
    (render_component plain_platform).

(** A key function that tells argument lists apart by their length only,
    and a function that returns its first argument. *)
Definition key_by_length (args : list value) : completion string :=
  Normal (pretty (Z.of_nat (length args))).

Definition first_argument (args : list value) : completion value :=
  Normal (List.hd JUndefined args).

(** ** Vocabulary of the further statements *)

(** The [init] object of the region-detection request. *)
Definition detection_init (body : value) : gmap string value :=
  <["method" := JStr "POST"]> {["body" := body]}.

(** The manager as detection leaves it when nothing was detected. *)
Definition undetected (this : CulturalManager) : CulturalManager :=
  mkCulturalManager "GLOBAL" None (holidays this).

(** How [init] ends once its load of the holidays has ended as [loaded]:
    in what the load threw, else in the [TypeError] of reading [locale]
    off undefined settings. *)
Definition without_settings (loaded : completion CulturalManager * World)
    : completion (option (CulturalManager * (value * value))) * World :=
  match loaded with
  | (Normal _, w') =>
      (Throw (TypeError
         "Cannot read properties of undefined (reading 'locale')"), w')
  | (Throw e, w') => (Throw e, w')
  end.


(** The world after [n] more fetches and [k] more waits of one second. *)
Definition after_attempts (w : World) (n k : nat) : World :=
  mkWorld (clock_year w) (fetch_calls w + n) (tracked w)
    (timers w ++ repeat 1000 k).

(** What the [catch] clause of [fetchAI] receives from a failed request. *)
Definition AI_failure (answer : completion Response) : error :=
  match answer with
  | Throw e => e
  | Normal _ => Err "Error" "AI API Error"
  end.

(** How the network settles the one request of [fetchAI] issued from
    world [w]. *)
Definition AI_answer (rt : Runtime) (endpoint : string)
    (options : gmap string value) (w : World) : completion Response :=
  fetch_reply rt (fetch_calls w) ("https://ai.rlgprojects.io" +:+ endpoint)
    (AI_init options).

(** The exchanges a conversation adds to the history: one entry per
    prompt whose call fulfilled, in order. *)
Fixpoint exchanges (prompts : list (value * gmap string value))
    (completions : list (completion value)) : list (value * value) :=
  match prompts, completions with
  | (prompt, _) :: prompts', Normal response :: completions' =>
      (prompt, response) :: exchanges prompts' completions'
  | _ :: prompts', Throw _ :: completions' => exchanges prompts' completions'
  | _, _ => []
  end.

(** * Part II. Properties *)

(** ** Urgency levels *)

Import Overlap.

(** Under any pair of thresholds in order, every duration has exactly the
    class the three bands give it. *)
Lemma classify_levels (red_below green_from d : Z) :
  (red_below <= green_from)%Z ->
  classify (levels red_below green_from) d =
    Some (if (d <? red_below)%Z then red
          else if (d <? green_from)%Z then amber else green).
Proof.
  intros Horder. unfold classify, levels. simpl.
  destruct (Z.ltb_spec d red_below) as [Hlt | Hge]; [reflexivity |].
  destruct (Z.leb_spec red_below d) as [_ | Hlt]; [| lia]. simpl.
  destruct (Z.ltb_spec d green_from) as [Hlt | Hge']; [reflexivity |].
  destruct (Z.leb_spec green_from d) as [_ | Hlt]; [reflexivity | lia].
Qed.

(** The rule and the boundary values that C1 states exclude each other,
    whatever the classifier: the rule makes two hours amber, the values
    make it green. *)
Lemma stated_rule_excludes_values (f : Z -> option urgency) :
  stated_rule f -> ~ stated_values f.
Proof.
  intros Hrule (_ & _ & _ & Hgreen).
  destruct (Hrule (hours 2)) as (_ & Hamber & _).
  assert (f (hours 2) = Some amber) as Ha by (apply Hamber; unfold hours; lia).
  congruence.
Qed.

(** C1, as stated. No classifier has both the rule and the boundary
    values of the claim. The classifier of the spec has the boundary
    values, and so not the rule: an overlap of exactly two hours is green,
    where the rule makes it amber and makes green start above two
    hours. *)
Lemma classify_stated_rule_counterexample :
  ~ (exists f : Z -> option urgency, stated_rule f /\ stated_values f) /\
  stated_values (classify urgency_levels) /\
  ~ stated_rule (classify urgency_levels) /\
  classify urgency_levels (hours 2) = Some green /\
  (hours 1 <= hours 2 <= hours 2)%Z /\
  ~ (hours 2 < hours 2)%Z.
Proof.
  assert (stated_values (classify urgency_levels)) as Hvalues
    by (repeat split; reflexivity).
  split; [| split; [exact Hvalues | split; [| split; [reflexivity |]]]].
  - intros (f & Hrule & Hval). exact (stated_rule_excludes_values f Hrule Hval).
  - intros Hrule.
    exact (stated_rule_excludes_values _ Hrule Hvalues).
  - unfold hours. lia.
Qed.

(** C1, amended. Under configured thresholds [red_below <= green_from] the
    class of an overlap is a total function of its duration [d] in
    seconds: red iff [d < red_below], amber iff
    [red_below <= d < green_from], green iff [green_from <= d]. The
    default table is the one for one hour and two hours, and under it
    59m59s is red, 1h00m00s and 1h59m59s are amber and 2h00m00s is
    green. *)
Theorem classify_configured_thresholds (red_below green_from : Z) :
  (red_below <= green_from)%Z ->
  (forall d : Z,
     (exists u, classify (levels red_below green_from) d = Some u) /\
     (classify (levels red_below green_from) d = Some red
        <-> (d < red_below)%Z) /\
     (classify (levels red_below green_from) d = Some amber
        <-> (red_below <= d < green_from)%Z) /\
     (classify (levels red_below green_from) d = Some green
        <-> (green_from <= d)%Z)) /\
  urgency_levels = levels (hours 1) (hours 2) /\
  classify urgency_levels (59 * 60 + 59) = Some red /\
  classify urgency_levels (hours 1) = Some amber /\
  classify urgency_levels (hours 1 + 59 * 60 + 59) = Some amber /\
  classify urgency_levels (hours 2) = Some green.
Proof.
  intros Horder. split; [| repeat split].
  intros d. rewrite (classify_levels red_below green_from d Horder).
  destruct (Z.ltb_spec d red_below) as [Hlt | Hge];
    [| destruct (Z.ltb_spec d green_from) as [Hlt | Hge']];
    (split; [eauto |]); (split; [| split]); split; intros Hclass;
      first [congruence | lia].
Qed.

(** A request that halves the first threshold and moves the second to
    ninety minutes. *)
Lemma classify_configured_thresholds_witness :
  classify (levels 1800 5400) 1799 = Some red /\
  classify (levels 1800 5400) 1800 = Some amber /\
  classify (levels 1800 5400) 5399 = Some amber /\
  classify (levels 1800 5400) 5400 = Some green.
Proof.
  destruct (classify_configured_thresholds 1800 5400) as [Hrule _]; [lia |].
  split; [| split; [| split]].
  - apply (Hrule 1799). lia.
  - apply (Hrule 1800). lia.
  - apply (Hrule 5399). lia.
  - apply (Hrule 5400). lia.
Defined.

(** ** CulturalManager.translate *)

Lemma Get_own (table : gmap string value) (key : string) (v : value) :
  table !! key = Some v -> Get table key = v.
Proof. intros H. unfold Get. now rewrite H. Qed.

Lemma Get_missing (table : gmap string value) (key : string) :
  table !! key = None -> inherited key = false -> Get table key = JUndefined.
Proof.
  intros Hown Hinh. unfold Get, inherited in *. rewrite Hown.
  apply orb_false_iff in Hinh as [Hproto Hmember]. rewrite Hproto.
  apply bool_decide_eq_false in Hmember.
  destruct (Object_prototype !! key) eqn:E; [| reflexivity].
  exfalso. apply Hmember. eauto.
Qed.

Lemma or_not_undefined (a : value) (key : string) :
  JS.or a (JStr key) <> JUndefined.
Proof.
  unfold JS.or. destruct a; simpl; try discriminate.
  - destruct b; discriminate.
  - destruct (negb (Z.eqb n 0)); discriminate.
  - destruct (negb (String.eqb s "")); discriminate.
Qed.

(** Before any settings are loaded there is no table to index, and
    [translate] throws. *)
Lemma translate_without_table (key : string) :
  translate CulturalManager_new key =
    Throw (TypeError
      ("Cannot read properties of undefined (reading '" +:+ key +:+ "')")).
Proof. reflexivity. Qed.

Example translate_stored :
  translate (localised "ZA" {["greeting" := JStr "Sawubona"]}) "greeting"
    = Normal (JStr "Sawubona").
Proof. reflexivity. Qed.

Example translate_missing :
  translate (localised "ZA" {["greeting" := JStr "Sawubona"]}) "farewell"
    = Normal (JStr "farewell").
Proof. reflexivity. Qed.

(** C10, as stated, at two inputs. An entry that is the empty string is
    not returned: the key is. A key without an entry of its own that names
    a member of [Object.prototype] is not returned unchanged: the inherited
    function is. *)
Lemma translate_stored_or_key_counterexample :
  (let table : gmap string value := {["greeting" := JStr ""]} in
   table !! "greeting" = Some (JStr "") /\
   translate (localised "ZA" table) "greeting" = Normal (JStr "greeting") /\
   translate (localised "ZA" table) "greeting" <> Normal (JStr "")) /\
  (let table : gmap string value := {["greeting" := JStr "Sawubona"]} in
   table !! "toString" = None /\
   translate (localised "ZA" table) "toString" = Normal (JFun "toString") /\
   translate (localised "ZA" table) "toString" <> Normal (JStr "toString")).
Proof.
  split; simpl.
  - split; [reflexivity |]. split; [reflexivity | discriminate].
  - split; [reflexivity |]. split; [reflexivity | discriminate].
Qed.

(** C10, amended. When the settings carry a translations table,
    [translate(key)] returns normally and never returns [undefined]; it
    returns the entry stored under [key] when that entry is truthy, and
    the key itself when the entry is falsy (the empty string, [0], [null],
    [false]) or when there is no entry, own or inherited, under [key]. *)
Theorem translate_truthy_entry_or_key
    (this : CulturalManager) (settings : LocaleSettings)
    (table : gmap string value) (key : string) :
  localeSettings this = Some settings ->
  translations settings = Some table ->
  exists v : value,
    translate this key = Normal v /\
    v <> JUndefined /\
    (forall stored, table !! key = Some stored ->
       v = if ToBoolean stored then stored else JStr key) /\
    (table !! key = None -> inherited key = false -> v = JStr key).
Proof.
  intros Hsettings Htable. unfold translate. rewrite Hsettings, Htable.
  exists (JS.or (Get table key) (JStr key)).
  split; [reflexivity |]. split; [apply or_not_undefined |]. split.
  - intros stored Hown. now rewrite (Get_own table key stored Hown).
  - intros Hown Hinh. now rewrite (Get_missing table key Hown Hinh).
Qed.

Lemma translate_truthy_entry_or_key_witness :
  exists v : value,
    translate (localised "ZA" {["greeting" := JStr "Sawubona"]}) "farewell"
      = Normal v /\
    v <> JUndefined /\
    (forall stored,
       ({["greeting" := JStr "Sawubona"]} : gmap string value) !! "farewell"
         = Some stored ->
       v = if ToBoolean stored then stored else JStr "farewell") /\
    (({["greeting" := JStr "Sawubona"]} : gmap string value) !! "farewell"
       = None ->
     inherited "farewell" = false -> v = JStr "farewell").
Proof.
  apply (translate_truthy_entry_or_key
           (localised "ZA" {["greeting" := JStr "Sawubona"]})
           (mkLocaleSettings (JStr "en-ZA") (JStr "Africa/Johannesburg")
              (JStr "ZAR") (Some {["greeting" := JStr "Sawubona"]}))
           {["greeting" := JStr "Sawubona"]} "farewell");
    reflexivity.
Defined.

(** ** NetworkHandler.fetchWithRetry *)

(** Among answers of which the i-th is [ok], there is a first [ok] one. *)
Lemma first_ok_answer (i : nat) :
  forall (answer : nat -> completion Response) (response : Response),
    answer i = Normal response ->
    ok response = true ->
    exists (first : nat) (response' : Response),
      (first <= i)%nat /\
      (forall j, (j < first)%nat -> failed (answer j) = true) /\
      answer first = Normal response' /\
      ok response' = true.
Proof.
  induction i as [| i' IH]; intros answer response Hanswer Hok.
  - exists O, response. repeat split; [lia | | assumption..].
    intros j Hj. lia.
  - destruct (failed (answer O)) eqn:Hhead.
    + destruct (IH (fun j => answer (S j)) response Hanswer Hok)
        as (first & response' & Hle & Hbefore & Hfirst & Hok').
      exists (S first), response'. repeat split; [lia | | assumption..].
      intros [| j] Hj; [assumption | apply Hbefore; lia].
    + destruct (answer O) as [head | e] eqn:Hzero; [| discriminate].
      exists O, head. repeat split; [lia | | exact Hzero |].
      * intros j Hj. lia.
      * simpl in Hhead. now destruct (ok head).
Qed.

Section FetchWithRetry.

Variable rt : Runtime.
Variables (url method : string) (data : value).
Variable options : gmap string value.

Local Abbreviation run := (fetchWithRetry rt url method data options).
Local Abbreviation this_attempt := (attempt rt url method data options).

(** One round of the function: the [try] block, then either the returned
    promise or the [catch] clause. *)
Lemma fetchWithRetry_round (retries : nat) (w : World) :
  run retries w =
    match this_attempt w with
    | (Normal promise, w') => (promise, w')
    | (Throw e, w') =>
        match retries with
        | S retries' => run retries' (snd (setTimeout 1000 w'))
        | O => (Throw e, w')
        end
    end.
Proof.
  destruct retries; simpl; unfold mbind, Eff_bind, Eff.bind, Eff.try;
    destruct (this_attempt w) as [[p | e] w']; reflexivity.
Qed.

(** The [try] block when the payload cannot be serialised: nothing is
    sent. *)
Lemma attempt_unserialisable (e : error) (w : World) :
  request_body rt data = Throw e -> this_attempt w = (Throw e, w).
Proof.
  intros Hbody. unfold attempt, mbind, Eff_bind, Eff.bind, Eff.settle.
  now rewrite Hbody.
Qed.

(** The [try] block when the request goes out with body [body]. *)
Lemma attempt_sent (body : value) (w : World) :
  request_body rt data = Normal body ->
  this_attempt w =
    (match fetch_reply rt (fetch_calls w) url
             (request_init method body options) with
     | Throw e => Throw e
     | Normal response =>
         if ok response then Normal (json response)
         else Throw (Err "Error" "Network Error")
     end, fetched w).
Proof.
  intros Hbody.
  unfold attempt, mbind, Eff_bind, Eff.bind, Eff.settle, fetch.
  rewrite Hbody.
  destruct (fetch_reply rt (fetch_calls w) url _) as [response | e];
    [destruct (ok response) |]; reflexivity.
Qed.

Section Sent.

Variable body : value.
Hypothesis Hbody : request_body rt data = Normal body.

Local Abbreviation answer := (reply rt url method options body).

Lemma reply_after_retry (w : World) (j : nat) :
  answer (snd (setTimeout 1000 (fetched w))) j = answer w (S j).
Proof. unfold reply. simpl. now rewrite Nat.add_succ_r. Qed.

(** A failed first attempt hands [failure] to the [catch] clause. *)
Lemma attempt_failed (w : World) :
  failed (answer w 0%nat) = true ->
  this_attempt w = (Throw (failure (answer w 0%nat)), fetched w).
Proof.
  intros Hfail. rewrite (attempt_sent body w Hbody).
  unfold reply in *. rewrite Nat.add_0_r in *.
  destruct (fetch_reply rt (fetch_calls w) url _) as [response | e];
    simpl in *; [| reflexivity].
  destruct (ok response); [discriminate | reflexivity].
Qed.

(** The first [ok] response within the budget decides the result, and no
    [fetch] is issued after it. *)
Lemma fetchWithRetry_first_ok (retries i : nat) :
  forall (w : World) (response : Response),
    (i <= retries)%nat ->
    (forall j, (j < i)%nat -> failed (answer w j) = true) ->
    answer w i = Normal response ->
    ok response = true ->
    fst (run retries w) = json response /\
    fetch_calls (snd (run retries w)) = (fetch_calls w + S i)%nat.
Proof.
  revert i. induction retries as [| retries' IH];
    intros i w response Hle Hbefore Hreply Hok;
    rewrite fetchWithRetry_round.
  - assert (i = O) by lia; subst i.
    rewrite (attempt_sent body w Hbody).
    unfold reply in Hreply. rewrite Nat.add_0_r in Hreply.
    rewrite Hreply, Hok. simpl. split; [reflexivity | lia].
  - destruct i as [| i'].
    + rewrite (attempt_sent body w Hbody).
      unfold reply in Hreply. rewrite Nat.add_0_r in Hreply.
      rewrite Hreply, Hok. simpl. split; [reflexivity | lia].
    + rewrite attempt_failed by (apply Hbefore; lia).
      destruct (IH i' (snd (setTimeout 1000 (fetched w))) response)
        as [Hres Hcalls]; try assumption.
      * lia.
      * intros j Hj. rewrite reply_after_retry. apply Hbefore. lia.
      * now rewrite reply_after_retry.
      * split; [exact Hres |]. rewrite Hcalls. simpl. lia.
Qed.

(** When every attempt of the budget fails, the error of the last one is
    thrown after [retries + 1] fetches. *)
Lemma fetchWithRetry_all_failed (retries : nat) :
  forall w : World,
    (forall j, (j <= retries)%nat -> failed (answer w j) = true) ->
    fst (run retries w) = Throw (failure (answer w retries)) /\
    fetch_calls (snd (run retries w)) = (fetch_calls w + S retries)%nat.
Proof.
  induction retries as [| retries' IH]; intros w Hall;
    rewrite fetchWithRetry_round, attempt_failed by (apply Hall; lia).
  - simpl. split; [reflexivity | lia].
  - destruct (IH (snd (setTimeout 1000 (fetched w)))) as [Hres Hcalls].
    + intros j Hj. rewrite reply_after_retry. apply Hall. lia.
    + rewrite Hres, Hcalls, reply_after_retry. simpl.
      split; [reflexivity | lia].
Qed.

(** One second is awaited before each retry and at no other time. *)
Lemma fetchWithRetry_all_failed_timers (retries : nat) :
  forall w : World,
    (forall j, (j <= retries)%nat -> failed (answer w j) = true) ->
    timers (snd (run retries w)) = (timers w ++ repeat 1000 retries)%list.
Proof.
  induction retries as [| retries' IH]; intros w Hall;
    rewrite fetchWithRetry_round, attempt_failed by (apply Hall; lia).
  - simpl. now rewrite app_nil_r.
  - rewrite IH.
    + simpl. now rewrite <- app_assoc.
    + intros j Hj. rewrite reply_after_retry. apply Hall. lia.
Qed.

End Sent.

(** A payload that cannot be serialised is never sent: every round throws
    before [fetch], and the serialiser's error is rethrown. *)
Lemma fetchWithRetry_unserialisable (e : error) (retries : nat) :
  forall w : World,
    request_body rt data = Throw e ->
    fst (run retries w) = Throw e /\
    fetch_calls (snd (run retries w)) = fetch_calls w.
Proof.
  induction retries as [| retries' IH]; intros w Hbody;
    rewrite fetchWithRetry_round, (attempt_unserialisable e w Hbody).
  - split; reflexivity.
  - destruct (IH (snd (setTimeout 1000 w)) Hbody) as [Hres Hcalls].
    rewrite Hres, Hcalls. split; reflexivity.
Qed.

(** The number of fetches never exceeds the budget plus one. *)
Lemma fetchWithRetry_calls_bound (retries : nat) :
  forall w : World,
    (fetch_calls (snd (run retries w)) <= fetch_calls w + S retries)%nat.
Proof.
  destruct (request_body rt data) as [body | e] eqn:Hbody.
  - induction retries as [| retries' IH]; intros w;
      rewrite fetchWithRetry_round, (attempt_sent body w Hbody);
      destruct (fetch_reply rt (fetch_calls w) url _) as [response | err];
      [destruct (ok response) | | destruct (ok response) |]; simpl;
      try lia;
      match goal with
      | |- context [fetchWithRetry _ _ _ _ _ retries' ?w'] =>
          specialize (IH w'); simpl in IH; lia
      end.
  - intros w. destruct (fetchWithRetry_unserialisable e retries w Hbody)
      as [_ Hcalls]. rewrite Hcalls. lia.
Qed.

End FetchWithRetry.

(** C9, amended. Called with its default [retries = 3], [fetchWithRetry]
    issues at most four fetches, whatever the url, the method, the payload
    and the options. When the request can be sent: if one of those four
    attempts is answered by a response with [ok = true], the call settles
    as the [json()] of the first such response, and no fetch follows it:
    it returns the parsed body when the body parses and throws the parse
    error, without a retry, when it does not; and if all four attempts
    fail, by a rejected [fetch] or by a response with [ok = false], the
    call throws the error of the fourth attempt and returns no value. *)
Theorem fetchWithRetry_default_budget
    (rt : Runtime) (url method : string) (data : value)
    (options : gmap string value) (w : World) :
  let result := fetchWithRetry rt url method data options 3 w in
  (fetch_calls (snd result) <= fetch_calls w + 4)%nat /\
  forall body : value,
    request_body rt data = Normal body ->
    let answer := reply rt url method options body w in
    (forall (i : nat) (response : Response),
        (i < 4)%nat ->
        answer i = Normal response ->
        ok response = true ->
        exists (first : nat) (response' : Response),
          (first <= i)%nat /\
          (forall j, (j < first)%nat -> failed (answer j) = true) /\
          answer first = Normal response' /\
          ok response' = true /\
          fst result = json response' /\
          fetch_calls (snd result) = (fetch_calls w + S first)%nat) /\
    ((forall j, (j < 4)%nat -> failed (answer j) = true) ->
        fst result = Throw (failure (answer 3%nat)) /\
        fetch_calls (snd result) = (fetch_calls w + 4)%nat).
Proof.
  intros result. split.
  - apply (fetchWithRetry_calls_bound rt url method data options 3 w).
  - intros body Hbody answer. split.
    + intros i response Hi Hanswer Hok.
      destruct (first_ok_answer i answer response Hanswer Hok)
        as (first & response' & Hle & Hbefore & Hfirst & Hok').
      exists first, response'. repeat split; try assumption;
        apply (fetchWithRetry_first_ok rt url method data options body Hbody
                 3 first w response'); solve [lia | assumption].
    + intros Hall.
      apply (fetchWithRetry_all_failed rt url method data options body Hbody 3).
      intros j Hj. apply Hall. lia.
Qed.

(** Two runs. A service that times out twice and then answers: the third
    fetch decides. A service that is down: four fetches, then the error of
    the last one. *)
Lemma fetchWithRetry_default_budget_witness :
  (exists (first : nat) (response : Response),
     first = 2%nat /\
     fst (fetchWithRetry flaky_service "/audit" "POST" (JStr "login") ∅ 3
            fresh_world) = json response /\
     fetch_calls (snd (fetchWithRetry flaky_service "/audit" "POST"
                         (JStr "login") ∅ 3 fresh_world)) = 3%nat) /\
  (fst (fetchWithRetry dead_service "/audit" "POST" (JStr "login") ∅ 3
          fresh_world) = Throw (Err "Error" "Network Error") /\
   fetch_calls (snd (fetchWithRetry dead_service "/audit" "POST"
                       (JStr "login") ∅ 3 fresh_world)) = 4%nat).
Proof.
  split.
  - destruct (fetchWithRetry_default_budget flaky_service "/audit" "POST"
                (JStr "login") ∅ fresh_world) as [_ Hsent].
    destruct (Hsent (JStr "{}") eq_refl) as [Hok _].
    destruct (Hok 2%nat pong) as
      (first & response & Hle & Hbefore & Hfirst & _ & Hresult & Hcalls);
      [lia | reflexivity | reflexivity |].
    assert (first = 2%nat) as Htwo.
    { destruct first as [| [| [| n]]]; [discriminate.. | reflexivity | lia]. }
    exists first, response. subst first. repeat split; assumption.
  - destruct (fetchWithRetry_default_budget dead_service "/audit" "POST"
                (JStr "login") ∅ fresh_world) as [_ Hsent].
    destruct (Hsent (JStr "{}") eq_refl) as [_ Hfail].
    apply Hfail.
    intros [| [| [| [| j]]]] Hj; try reflexivity; lia.
Defined.

(** C9, as stated, at one input: the first response has [ok = true] and a
    body that is no JSON. No attempt has failed, and yet the call returns
    no parsed body: it throws the parse error after that one fetch,
    without a wait or a retry. *)
Lemma fetchWithRetry_unparsable_counterexample :
  reply garbled_service "/audit" "POST" ∅ (JStr "{}") fresh_world 0
    = Normal (mkResponse true (Throw syntax_error)) /\
  failed (reply garbled_service "/audit" "POST" ∅ (JStr "{}") fresh_world 0)
    = false /\
  fetchWithRetry garbled_service "/audit" "POST" (JStr "login") ∅ 3 fresh_world
    = (Throw syntax_error, fetched fresh_world) /\
  forall parsed : value,
    fst (fetchWithRetry garbled_service "/audit" "POST" (JStr "login") ∅ 3
           fresh_world) <> Normal parsed.
Proof.
  split; [reflexivity |]. split; [reflexivity |]. split; [reflexivity |].
  intros parsed. discriminate.
Qed.

Example fetchWithRetry_flaky_run :
  fst (fetchWithRetry flaky_service "/audit" "POST" (JStr "login") ∅ 3
         fresh_world) = Normal (JStr "pong").
Proof. reflexivity. Qed.

(** ** CulturalManager.loadHolidayData *)

(** A call issues one fetch and ends as the answer and the analytics
    service decide. *)
Lemma loadHolidayData_run (rt : Runtime) (analytics : error -> completion unit)
    (this : CulturalManager) (w : World) :
  loadHolidayData rt analytics this w
    = load_outcome analytics this w (holiday_answer rt this w).
Proof.
  unfold loadHolidayData, load_outcome, holiday_answer, mbind, Eff_bind,
    Eff.bind, Eff.try, Eff.settle, getFullYear, fetch, trackError, mret,
    Eff_ret, Eff.ret, reported, fetched.
  simpl.
  destruct (fetch_reply rt (fetch_calls w) _ ∅) as [response | e]; simpl.
  - destruct (json response) as [parsed | e]; simpl; [reflexivity |].
    now destruct (analytics e).
  - now destruct (analytics e).
Qed.

(** The request names the region and the year and nothing else. *)
Example holidays_url_south_africa :
  holidays_url 2026 "ZA" = "https://date.nager.at/api/v3/PublicHolidays/2026/ZA".
Proof. reflexivity. Qed.

(** C4, as stated, at one input: the same region in the same year, loaded
    twice from a service that times out once and then answers. With an
    analytics service that returns, the first call leaves the empty list
    and the second the holiday list. As the sources stand, the first call
    throws and the second leaves the holiday list. Either way the two
    calls do not yield the same dates. *)
Lemma loadHolidayData_twice_counterexample :
  (exists w',
     load_twice waking_service recording south_africa fresh_world
       = (Normal (south_africa, south_africa_loaded), w') /\
     clock_year w' = clock_year fresh_world) /\
  (loadHolidayData waking_service uninitialised south_africa fresh_world
     = (Throw RLG_uninitialised, fetched fresh_world) /\
   loadHolidayData waking_service uninitialised south_africa
     (fetched fresh_world)
     = (Normal south_africa_loaded, fetched (fetched fresh_world))) /\
  currentRegion south_africa_loaded = currentRegion south_africa /\
  holidays south_africa = JArr [] /\
  holidays south_africa_loaded = JArr [freedom_day] /\
  holidays south_africa <> holidays south_africa_loaded.
Proof.
  split; [eexists; split; reflexivity |].
  split; [split; reflexivity |].
  repeat split. discriminate.
Qed.

(** C4, amended. Two consecutive calls of [loadHolidayData] whose requests
    for the manager's region and the current year are both answered with
    the same body return normally, after one fetch each and whatever the
    analytics service does, and leave the same holiday list: that parsed
    body itself. Every concrete date, those of movable holidays included,
    is taken from the body as it is; the code resolves no rule. *)
Theorem loadHolidayData_same_body_same_list
    (rt : Runtime) (analytics : error -> completion unit)
    (this : CulturalManager) (w : World)
    (first second : Response) (parsed : value) :
  fetch_reply rt (fetch_calls w)
    (holidays_url (clock_year w) (currentRegion this)) ∅ = Normal first ->
  json first = Normal parsed ->
  fetch_reply rt (S (fetch_calls w))
    (holidays_url (clock_year w) (currentRegion this)) ∅ = Normal second ->
  json second = Normal parsed ->
  load_twice rt analytics this w
    = (Normal
         (mkCulturalManager (currentRegion this) (localeSettings this) parsed,
          mkCulturalManager (currentRegion this) (localeSettings this) parsed),
       fetched (fetched w)).
Proof.
  intros Hfirst Hjson Hsecond Hjson'.
  unfold load_twice, mbind, Eff_bind, Eff.bind.
  rewrite loadHolidayData_run. unfold holiday_answer at 1.
  rewrite Hfirst, Hjson. simpl.
  rewrite loadHolidayData_run. unfold holiday_answer. simpl.
  rewrite Hsecond, Hjson'. reflexivity.
Qed.

Lemma loadHolidayData_same_body_same_list_witness :
  load_twice steady_service uninitialised south_africa fresh_world
    = (Normal (south_africa_loaded, south_africa_loaded),
       fetched (fetched fresh_world)).
Proof.
  apply (loadHolidayData_same_body_same_list steady_service uninitialised
           south_africa fresh_world
           (mkResponse true (Normal (JArr [freedom_day])))
           (mkResponse true (Normal (JArr [freedom_day])))
           (JArr [freedom_day]));
    reflexivity.
Defined.

(** C8, as stated, at two inputs; the holiday service times out on every
    request. As the sources stand, with a list from an earlier load held,
    [loadHolidayData] fails on the first timeout, after its one fetch:
    the held list does not save the call. With an analytics service that
    returns and no list held, the call issues its one fetch and then
    returns normally with the empty list: it neither fetches again nor
    fails. *)
Lemma calendar_timeout_retry_counterexample :
  holidays south_africa_loaded = JArr [freedom_day] /\
  loadHolidayData silent_service uninitialised south_africa_loaded fresh_world
    = (Throw RLG_uninitialised, fetched fresh_world) /\
  fetch_calls (fetched fresh_world) = 1%nat /\
  holidays south_africa = JArr [] /\
  loadHolidayData silent_service recording south_africa fresh_world
    = (Normal south_africa, reported fresh_world timeout_error) /\
  fetch_calls (reported fresh_world timeout_error) = 1%nat.
Proof. repeat split. Qed.

(** C8, amended. When the holiday request fails, because [fetch] rejects
    (a timeout, a network error) or because the body does not parse,
    [loadHolidayData] issues exactly one fetch, makes no retry and reads
    no cache, and hands the error to analytics. When that call returns,
    [loadHolidayData] returns normally with the manager, and so the list
    held before, unchanged, and the error on record: the failure does not
    reach the caller. When that call throws, [loadHolidayData] throws
    what it threw. *)
Theorem loadHolidayData_failure_single_fetch
    (rt : Runtime) (analytics : error -> completion unit)
    (this : CulturalManager) (w : World) (e : error) :
  holiday_answer rt this w = Throw e ->
  loadHolidayData rt analytics this w
    = match analytics e with
      | Normal _ => (Normal this, reported w e)
      | Throw thrown => (Throw thrown, fetched w)
      end.
Proof.
  intros Hanswer. rewrite loadHolidayData_run, Hanswer. reflexivity.
Qed.

Lemma loadHolidayData_failure_single_fetch_witness :
  loadHolidayData silent_service recording south_africa_loaded fresh_world
    = (Normal south_africa_loaded, reported fresh_world timeout_error) /\
  loadHolidayData silent_service uninitialised south_africa_loaded fresh_world
    = (Throw RLG_uninitialised, fetched fresh_world).
Proof.
  split.
  - apply (loadHolidayData_failure_single_fetch silent_service recording
             south_africa_loaded fresh_world timeout_error).
    reflexivity.
  - apply (loadHolidayData_failure_single_fetch silent_service uninitialised
             south_africa_loaded fresh_world timeout_error).
    reflexivity.
Defined.

(** * Part III. Further properties *)

(** ** NetworkHandler.fetchWithRetry: budgets, waits and payloads *)

Section RetrySchedule.

Variable rt : Runtime.
Variables (url method : string) (data : value).
Variable options : gmap string value.

Local Abbreviation run := (fetchWithRetry rt url method data options).

Lemma after_attempts_retry (w : World) (n k : nat) :
  after_attempts (snd (setTimeout 1000 (fetched w))) n k
    = after_attempts w (S n) (S k).
Proof.
  unfold after_attempts. simpl. f_equal; [lia |].
  now rewrite <- app_assoc.
Qed.

Lemma first_ok_world (body : value) (retries i : nat) :
  request_body rt data = Normal body ->
  forall (w : World) (response : Response),
    (i <= retries)%nat ->
    (forall j, (j < i)%nat ->
       failed (reply rt url method options body w j) = true) ->
    reply rt url method options body w i = Normal response ->
    ok response = true ->
    snd (run retries w) = after_attempts w (S i) i.
Proof.
  intros Hbody. revert i.
  induction retries as [| retries' IH];
    intros i w response Hle Hbefore Hreply Hok;
    rewrite fetchWithRetry_round.
  - assert (i = O) by lia; subst i.
    rewrite (attempt_sent rt url method data options body w Hbody).
    unfold reply in Hreply. rewrite Nat.add_0_r in Hreply.
    rewrite Hreply, Hok. unfold after_attempts, fetched. simpl.
    f_equal; [lia | now rewrite app_nil_r].
  - destruct i as [| i'].
    + rewrite (attempt_sent rt url method data options body w Hbody).
      unfold reply in Hreply. rewrite Nat.add_0_r in Hreply.
      rewrite Hreply, Hok. unfold after_attempts, fetched. simpl.
      f_equal; [lia | now rewrite app_nil_r].
    + rewrite (attempt_failed rt url method data options body Hbody)
        by (apply Hbefore; lia).
      rewrite (IH i' _ response); try assumption.
      * apply after_attempts_retry.
      * lia.
      * intros j Hj. rewrite reply_after_retry. apply Hbefore. lia.
      * now rewrite reply_after_retry.
Qed.

Lemma all_failed_world (body : value) (retries : nat) :
  request_body rt data = Normal body ->
  forall w : World,
    (forall j, (j <= retries)%nat ->
       failed (reply rt url method options body w j) = true) ->
    snd (run retries w) = after_attempts w (S retries) retries.
Proof.
  intros Hbody.
  induction retries as [| retries' IH]; intros w Hall;
    rewrite fetchWithRetry_round,
      (attempt_failed rt url method data options body Hbody)
      by (apply Hall; lia).
  - unfold after_attempts, fetched. simpl.
    f_equal; [lia | now rewrite app_nil_r].
  - rewrite IH.
    + apply after_attempts_retry.
    + intros j Hj. rewrite reply_after_retry. apply Hall. lia.
Qed.

Lemma unserialisable_world (e : error) (retries : nat) :
  request_body rt data = Throw e ->
  forall w : World, snd (run retries w) = after_attempts w 0 retries.
Proof.
  intros Hbody.
  induction retries as [| retries' IH]; intros w;
    rewrite fetchWithRetry_round,
      (attempt_unserialisable rt url method data options e w Hbody).
  - unfold after_attempts. simpl. destruct w; simpl.
    f_equal; [lia | now rewrite app_nil_r].
  - rewrite IH. unfold after_attempts. simpl.
    f_equal. now rewrite <- app_assoc.
Qed.

End RetrySchedule.

(** X1. For every retry budget: when the request can be sent and the
    first answer with [ok = true] is the i-th one, with [i] within the
    budget, [fetchWithRetry] settles as that response's [json()] after
    exactly [i + 1] fetches and [i] waits of 1000 ms, one before each
    retry; nothing is reported to analytics. *)
Theorem fetchWithRetry_succeeds_after
    (rt : Runtime) (url method : string) (data : value)
    (options : gmap string value) (body : value) (retries i : nat)
    (w : World) (response : Response) :
  request_body rt data = Normal body ->
  (i <= retries)%nat ->
  (forall j, (j < i)%nat ->
     failed (reply rt url method options body w j) = true) ->
  reply rt url method options body w i = Normal response ->
  ok response = true ->
  fetchWithRetry rt url method data options retries w
    = (json response, after_attempts w (S i) i).
Proof.
  intros Hbody Hle Hbefore Hreply Hok.
  rewrite (surjective_pairing (fetchWithRetry _ _ _ _ _ _ _)). f_equal.
  - now apply (fetchWithRetry_first_ok rt url method data options body Hbody
                 retries i w response).
  - now apply (first_ok_world rt url method data options body retries i Hbody
                 w response).
Qed.

Lemma fetchWithRetry_succeeds_after_witness :
  fetchWithRetry flaky_service "/audit" "POST" (JStr "login") ∅ 5 fresh_world
    = (Normal (JStr "pong"), after_attempts fresh_world 3 2).
Proof.
  apply (fetchWithRetry_succeeds_after flaky_service "/audit" "POST"
           (JStr "login") ∅ (JStr "{}") 5 2 fresh_world pong).
  - reflexivity.
  - lia.
  - intros [| [| j]] Hj; [reflexivity | reflexivity | lia].
  - reflexivity.
  - reflexivity.
Defined.

(** X2. For every retry budget: when the request can be sent and every
    one of the [retries + 1] attempts fails, [fetchWithRetry] throws the
    error of the last attempt after exactly [retries + 1] fetches and
    [retries] waits of 1000 ms; the delay between attempts never grows. *)
Theorem fetchWithRetry_exhausts_budget
    (rt : Runtime) (url method : string) (data : value)
    (options : gmap string value) (body : value) (retries : nat) (w : World) :
  request_body rt data = Normal body ->
  (forall j, (j <= retries)%nat ->
     failed (reply rt url method options body w j) = true) ->
  fetchWithRetry rt url method data options retries w
    = (Throw (failure (reply rt url method options body w retries)),
       after_attempts w (S retries) retries).
Proof.
  intros Hbody Hall.
  rewrite (surjective_pairing (fetchWithRetry _ _ _ _ _ _ _)). f_equal.
  - now apply (fetchWithRetry_all_failed rt url method data options body Hbody
                 retries w).
  - now apply (all_failed_world rt url method data options body retries Hbody w).
Qed.

Lemma fetchWithRetry_exhausts_budget_witness :
  fetchWithRetry silent_service "/audit" "POST" (JStr "login") ∅ 1 fresh_world
    = (Throw timeout_error, after_attempts fresh_world 2 1).
Proof.
  apply (fetchWithRetry_exhausts_budget silent_service "/audit" "POST"
           (JStr "login") ∅ (JStr "{}") 1 fresh_world).
  - reflexivity.
  - intros j Hj. reflexivity.
Defined.

(** X3. When the payload is truthy and [JSON.stringify] throws on it, no
    fetch is ever issued: [fetchWithRetry] still goes through its whole
    budget, waiting 1000 ms [retries] times, and then rethrows the
    serialiser's error. *)
Theorem fetchWithRetry_unserialisable_payload
    (rt : Runtime) (url method : string) (data : value)
    (options : gmap string value) (e : error) (retries : nat) (w : World) :
  request_body rt data = Throw e ->
  fetchWithRetry rt url method data options retries w
    = (Throw e, after_attempts w 0 retries).
Proof.
  intros Hbody.
  rewrite (surjective_pairing (fetchWithRetry _ _ _ _ _ _ _)). f_equal.
  - now apply (fetchWithRetry_unserialisable rt url method data options e
                 retries w).
  - now apply (unserialisable_world rt url method data options e retries).
Qed.

Lemma fetchWithRetry_unserialisable_payload_witness :
  fetchWithRetry cyclic_service "/audit" "POST" (JObj ∅) ∅ 3 fresh_world
    = (Throw cyclic_error, after_attempts fresh_world 0 3).
Proof.
  apply (fetchWithRetry_unserialisable_payload cyclic_service "/audit" "POST"
           (JObj ∅) ∅ cyclic_error 3 fresh_world).
  reflexivity.
Defined.

(** A falsy payload never reaches the serialiser. *)
Lemma attempt_falsy_payload
    (rt : Runtime) (stringify : value -> completion value)
    (url method : string) (data : value) (options : gmap string value)
    (w : World) :
  ToBoolean data = false ->
  attempt (mkRuntime (fetch_reply rt) stringify) url method data options w
    = attempt rt url method data options w.
Proof.
  intros Hfalsy.
  unfold attempt, request_body, mbind, Eff_bind, Eff.bind, Eff.settle, fetch.
  rewrite Hfalsy. reflexivity.
Qed.

(** X4. A falsy payload ([null], [undefined], [0], the empty string,
    [false]) is sent as the body [null], and [JSON.stringify] is never
    consulted for it: the whole run is the same whatever the serialiser
    would do, so [post(url, 0)] does not send ["0"]. *)
Theorem fetchWithRetry_falsy_payload
    (rt : Runtime) (stringify : value -> completion value)
    (url method : string) (data : value) (options : gmap string value)
    (retries : nat) (w : World) :
  ToBoolean data = false ->
  request_body rt data = Normal JNull /\
  fetchWithRetry (mkRuntime (fetch_reply rt) stringify) url method data
    options retries w
    = fetchWithRetry rt url method data options retries w.
Proof.
  intros Hfalsy. split.
  - unfold request_body. now rewrite Hfalsy.
  - revert w. induction retries as [| retries' IH]; intros w;
      rewrite !fetchWithRetry_round,
        (attempt_falsy_payload rt stringify url method data options w Hfalsy);
      destruct (attempt rt url method data options w) as [[p | e] w'];
      try reflexivity.
    apply IH.
Qed.

Lemma fetchWithRetry_falsy_payload_witness :
  request_body flaky_service (JNum 0) = Normal JNull /\
  fetchWithRetry
    (mkRuntime (fetch_reply flaky_service) (fun _ => Throw cyclic_error))
    "/audit" "POST" (JNum 0) ∅ 3 fresh_world
    = fetchWithRetry flaky_service "/audit" "POST" (JNum 0) ∅ 3 fresh_world.
Proof.
  apply (fetchWithRetry_falsy_payload flaky_service
           (fun _ => Throw cyclic_error) "/audit" "POST" (JNum 0) ∅ 3
           fresh_world).
  reflexivity.
Defined.

(** X5. In the [init] object of a request the options win: a [method] or
    a [body] key of [options] replaces the one [fetchWithRetry] was called
    with, every other key of [options] is passed on, and nothing else is
    added. *)
Theorem request_init_options_win
    (method : string) (body : value) (options : gmap string value)
    (key : string) :
  request_init method body options !! key =
    match options !! key with
    | Some v => Some v
    | None =>
        if String.eqb key "method" then Some (JStr method)
        else if String.eqb key "body" then Some body
        else None
    end.
Proof.
  unfold request_init.
  destruct (options !! key) as [v |] eqn:Hopt.
  - now apply lookup_union_Some_l.
  - rewrite lookup_union_r by assumption.
    destruct (String.eqb_spec key "method") as [-> | Hm].
    + now rewrite lookup_insert_eq.
    + rewrite lookup_insert_ne by congruence.
      destruct (String.eqb_spec key "body") as [-> | Hb].
      * now rewrite lookup_singleton_eq.
      * rewrite lookup_singleton_ne by congruence. reflexivity.
Qed.

(** ** NetworkHandler: the offline queue *)

Lemma processQueue_loop_online (queue started : list QueuedRequest) :
  processQueue_loop true queue started = ([], (started ++ queue)%list).
Proof.
  revert started. induction queue as [| head rest IH]; intros started; simpl.
  - now rewrite app_nil_r.
  - rewrite IH. now rewrite <- app_assoc.
Qed.

Lemma processQueue_loop_offline (queue started : list QueuedRequest) :
  processQueue_loop false queue started = (queue, started).
Proof. now destruct queue. Qed.

(** X6. [processQueue] ends for every queue. Online, it starts one
    [fetchWithRetry] per entry, oldest first, and leaves the queue empty;
    offline, it starts nothing and leaves the queue as it is.
    [resumeOperations] turns the handler online and drains the queue the
    same way, so resuming a second time starts nothing. *)
Theorem processQueue_drains_in_order (this : NetworkHandler) :
  processQueue this
    = (if online this then (mkNetworkHandler [] true, queue this)
       else (this, [])) /\
  resumeOperations this = (mkNetworkHandler [] true, queue this) /\
  resumeOperations (fst (resumeOperations this))
    = (mkNetworkHandler [] true, []).
Proof.
  assert (forall queue, processQueue (mkNetworkHandler queue true)
                        = (mkNetworkHandler [] true, queue)) as Honline.
  { intros queue. unfold processQueue. simpl.
    now rewrite processQueue_loop_online. }
  split; [| split].
  - destruct this as [queue [|]]; [apply Honline |].
    unfold processQueue. simpl. now rewrite processQueue_loop_offline.
  - apply Honline.
  - unfold resumeOperations at 2. rewrite Honline. apply Honline.
Qed.

(** ** DeepSeekIntegration.fetchAI *)

Lemma fetchAI_run (rt : Runtime) (analytics : error -> completion unit)
    (endpoint : string) (options : gmap string value) (w : World) :
  fetchAI rt analytics endpoint options w =
    if failed (AI_answer rt endpoint options w) then
      match analytics (AI_failure (AI_answer rt endpoint options w)) with
      | Normal _ =>
          (Throw (AI_failure (AI_answer rt endpoint options w)),
           reported w (AI_failure (AI_answer rt endpoint options w)))
      | Throw thrown => (Throw thrown, fetched w)
      end
    else
      match AI_answer rt endpoint options w with
      | Normal response => (json response, fetched w)
      | Throw e => (Throw e, fetched w)
      end.
Proof.
  unfold fetchAI, AI_answer, mbind, Eff_bind, Eff.bind, Eff.try, Eff.settle,
    Eff.throw, fetch, trackError, reported, fetched.
  destruct (fetch_reply rt (fetch_calls w) _ (AI_init options))
    as [response | e]; simpl; [destruct (ok response); simpl |];
    try reflexivity.
  - now destruct (analytics (Err "Error" "AI API Error")).
  - now destruct (analytics e).
Qed.

(** X8. [fetchAI] never retries and never waits. When its one request
    fails, by a rejected [fetch] or by a response with [ok = false], the
    error is handed to analytics; when that call returns, the error is on
    record once and the same error is thrown to the caller; when that
    call throws, as it does while [RLG] is uninitialised, what it threw
    reaches the caller instead and nothing is on record. *)
Theorem fetchAI_failure_reported
    (rt : Runtime) (analytics : error -> completion unit)
    (endpoint : string) (options : gmap string value) (w : World) :
  failed (AI_answer rt endpoint options w) = true ->
  fetchAI rt analytics endpoint options w
    = match analytics (AI_failure (AI_answer rt endpoint options w)) with
      | Normal _ =>
          (Throw (AI_failure (AI_answer rt endpoint options w)),
           reported w (AI_failure (AI_answer rt endpoint options w)))
      | Throw thrown => (Throw thrown, fetched w)
      end.
Proof. intros Hfailed. now rewrite fetchAI_run, Hfailed. Qed.

Lemma fetchAI_failure_reported_witness :
  fetchAI not_found_service recording "/chat" ∅ fresh_world
    = (Throw (Err "Error" "AI API Error"),
       reported fresh_world (Err "Error" "AI API Error")) /\
  fetchAI not_found_service uninitialised "/chat" ∅ fresh_world
    = (Throw RLG_uninitialised, fetched fresh_world).
Proof.
  split.
  - apply (fetchAI_failure_reported not_found_service recording "/chat" ∅
             fresh_world).
    reflexivity.
  - apply (fetchAI_failure_reported not_found_service uninitialised "/chat" ∅
             fresh_world).
    reflexivity.
Defined.

(** X9. When the one request of [fetchAI] is answered with [ok = true],
    the call settles as the response's [json()] after that single fetch,
    and analytics hears nothing, also when the body does not parse: a
    parse error reaches the caller without being reported. The request
    always carries the fixed headers, whatever [options] hold. *)
Theorem fetchAI_parse_error_unreported
    (rt : Runtime) (analytics : error -> completion unit)
    (endpoint : string) (options : gmap string value)
    (w : World) (response : Response) :
  AI_answer rt endpoint options w = Normal response ->
  ok response = true ->
  fetchAI rt analytics endpoint options w = (json response, fetched w) /\
  tracked (snd (fetchAI rt analytics endpoint options w)) = tracked w /\
  AI_init options !! "headers" = Some AI_headers.
Proof.
  intros Hanswer Hok. rewrite fetchAI_run, Hanswer. simpl. rewrite Hok. simpl.
  repeat split. apply lookup_insert_eq.
Qed.

Lemma fetchAI_parse_error_unreported_witness :
  fetchAI garbled_service recording "/analyze" ∅ fresh_world
    = (Throw syntax_error, fetched fresh_world) /\
  tracked (snd (fetchAI garbled_service recording "/analyze" ∅ fresh_world))
    = [] /\
  AI_init ∅ !! "headers" = Some AI_headers.
Proof.
  apply (fetchAI_parse_error_unreported garbled_service recording "/analyze" ∅
           fresh_world (mkResponse true (Throw syntax_error)));
    reflexivity.
Defined.

(** ** DeepSeekIntegration.generateResponse *)

(** A call leaves the history as it was, or longer by its own exchange. *)
Lemma generateResponse_history (rt : Runtime)
    (analytics : error -> completion unit) (prompt : value)
    (context : gmap string value) (activeRules : completion value)
    (chatHistory : list (value * value)) (w : World) :
  snd (fst (generateResponse rt analytics prompt context activeRules
              chatHistory w))
    = match fst (fst (generateResponse rt analytics prompt context
                        activeRules chatHistory w)) with
      | Normal response => (chatHistory ++ [(prompt, response)])%list
      | Throw _ => chatHistory
      end.
Proof.
  unfold generateResponse.
  match goal with
  | |- context [match ?run w with _ => _ end] =>
      destruct (run w) as [[response | e] w']
  end; reflexivity.
Qed.

Lemma converse_length (rt : Runtime)
    (analytics : error -> completion unit)
    (prompts : list (value * gmap string value))
    (activeRules : completion value) :
  forall (chatHistory : list (value * value)) (w : World),
    length (fst (fst (converse rt analytics prompts activeRules
                        chatHistory w)))
      = length prompts.
Proof.
  induction prompts as [| [prompt context] rest IH]; intros chatHistory w;
    simpl; [reflexivity |].
  destruct (generateResponse rt analytics prompt context activeRules
              chatHistory w) as [[c history'] w'].
  specialize (IH history' w').
  destruct (converse rt analytics rest activeRules history' w')
    as [[cs final] w''].
  simpl in *. now rewrite IH.
Qed.

(** X10. The chat history is append-only and records exactly the
    fulfilled exchanges: after [generateResponse] has been called for a
    list of prompts, one call after the other, the history is the history
    held before followed by one entry [(prompt, response)] for each call
    that fulfilled, in call order; a call that rejected, in the
    serialiser or in [fetchAI], left no entry. *)
Theorem converse_history_append_only (rt : Runtime)
    (analytics : error -> completion unit)
    (prompts : list (value * gmap string value))
    (activeRules : completion value)
    (chatHistory : list (value * value)) (w : World) :
  snd (fst (converse rt analytics prompts activeRules chatHistory w))
    = (chatHistory
         ++ exchanges prompts
              (fst (fst (converse rt analytics prompts activeRules
                           chatHistory w))))%list
  /\
  length (fst (fst (converse rt analytics prompts activeRules chatHistory w)))
    = length prompts.
Proof.
  split; [| apply converse_length].
  revert chatHistory w.
  induction prompts as [| [prompt context] rest IH]; intros chatHistory w;
    simpl; [now rewrite app_nil_r |].
  pose proof (generateResponse_history rt analytics prompt context
                activeRules chatHistory w) as Hcall.
  destruct (generateResponse rt analytics prompt context activeRules
              chatHistory w) as [[c history'] w'].
  simpl in Hcall. subst history'.
  specialize (IH (match c with
                  | Normal response => (chatHistory ++ [(prompt, response)])%list
                  | Throw _ => chatHistory
                  end) w').
  destruct (converse rt analytics rest activeRules _ w') as [[cs final] w''].
  simpl in *. rewrite IH.
  destruct c as [response | e]; [now rewrite <- app_assoc | reflexivity].
Qed.

(** ** DeepSeekIntegration.preloadModels *)

(** X11. [preloadModels] never throws, and the first failure ends it
    silently: when the import of the cultural model fails, the compliance
    checker is not loaded either and the models are as before; when only
    the second import fails, the cultural model alone is added; when both
    succeed, both are stored under their names. *)
Theorem preloadModels_stops_at_first_failure
    (pf : Platform) (models : gmap string value) :
  fst (preloadModels pf models) = Normal tt /\
  (forall e,
     import_module pf (model_url "cultural-adaptation-v3") = Throw e ->
     snd (preloadModels pf models) = models) /\
  (forall cultural,
     import_module pf (model_url "cultural-adaptation-v3") = Normal cultural ->
     snd (preloadModels pf models)
       = match import_module pf (model_url "compliance-checker-v5") with
         | Normal checker =>
             <["compliance-checker-v5" := checker]>
               (<["cultural-adaptation-v3" := cultural]> models)
         | Throw _ => <["cultural-adaptation-v3" := cultural]> models
         end).
Proof.
  unfold preloadModels, loadModel. split; [| split].
  - destruct (import_module pf (model_url "cultural-adaptation-v3"));
      [destruct (import_module pf (model_url "compliance-checker-v5")) |];
      reflexivity.
  - intros e He. now rewrite He.
  - intros cultural Hc. rewrite Hc.
    now destruct (import_module pf (model_url "compliance-checker-v5")).
Qed.

Lemma preloadModels_stops_at_first_failure_witness :
  fst (preloadModels checker_only_platform ∅) = Normal tt /\
  snd (preloadModels checker_only_platform ∅) = ∅.
Proof.
  destruct (preloadModels_stops_at_first_failure checker_only_platform ∅)
    as (Hnormal & Hfirst & _).
  split; [exact Hnormal |].
  apply (Hfirst (TypeError "Failed to fetch dynamically imported module")).
  reflexivity.
Defined.

(** ** CulturalManager.detectRegionalSettings and init *)

Section Detection.

Variable rt : Runtime.
Variable pf : Platform.

(** A [Response] has no member named [region] or [settings]. *)
Hypothesis no_region : forall r, Response_member pf r "region" = JUndefined.
Hypothesis no_settings : forall r, Response_member pf r "settings" = JUndefined.

Lemma detectRegionalSettings_run (lang : value) (w : World) :
  detectRegionalSettings rt pf lang w =
    match JSON_stringify rt (JObj {["language" := lang]}) with
    | Throw e => (Throw e, w)
    | Normal body =>
        match fetch_reply rt (fetch_calls w) "/api/region-detection"
                (detection_init body) with
        | Throw e => (Throw e, fetched w)
        | Normal _ => (Normal (JStr "GLOBAL", JUndefined), fetched w)
        end
    end.
Proof.
  unfold detectRegionalSettings, detection_init, mbind, Eff_bind, Eff.bind,
    Eff.settle, fetch, mret, Eff_ret, Eff.ret.
  destruct (JSON_stringify rt _) as [body | e]; [| reflexivity].
  destruct (fetch_reply rt (fetch_calls w) _ _) as [response | e];
    [| reflexivity].
  now rewrite no_region, no_settings.
Qed.

Variable analytics : error -> completion unit.

Lemma init_run (this : CulturalManager) (lang : value) (w : World) :
  init rt analytics pf this lang w =
    match JSON_stringify rt (JObj {["language" := lang]}) with
    | Throw e => (Throw e, w)
    | Normal body =>
        match fetch_reply rt (fetch_calls w) "/api/region-detection"
                (detection_init body) with
        | Throw e => (Throw e, fetched w)
        | Normal _ =>
            without_settings
              (load_outcome analytics (undetected this) (fetched w)
                 (holiday_answer rt (undetected this) (fetched w)))
        end
    end.
Proof.
  unfold init, mbind, Eff_bind at 1, Eff.bind at 1.
  rewrite detectRegionalSettings_run.
  destruct (JSON_stringify rt _) as [body | e]; [| reflexivity].
  destruct (fetch_reply rt (fetch_calls w) _ _) as [response | e];
    [| reflexivity].
  simpl. unfold Eff_bind, Eff.bind.
  rewrite loadHolidayData_run. unfold load_outcome, undetected.
  destruct (holiday_answer rt _ (fetched w)) as [parsed | e];
    [reflexivity |].
  now destruct (analytics e).
Qed.

End Detection.

(** X12. On a platform whose [Response] objects have no member named
    [region] or [settings], [detectRegionalSettings] detects nothing:
    whenever its request is answered at all, whatever the language sent,
    the status and the body, it stores the region ['GLOBAL'] and the
    settings [undefined], after exactly one fetch. A serialiser error or
    a rejected [fetch] is thrown to the caller. *)
Theorem detectRegionalSettings_always_global
    (rt : Runtime) (pf : Platform) (lang : value) (w : World) :
  (forall r, Response_member pf r "region" = JUndefined) ->
  (forall r, Response_member pf r "settings" = JUndefined) ->
  detectRegionalSettings rt pf lang w =
    match JSON_stringify rt (JObj {["language" := lang]}) with
    | Throw e => (Throw e, w)
    | Normal body =>
        match fetch_reply rt (fetch_calls w) "/api/region-detection"
                (detection_init body) with
        | Throw e => (Throw e, fetched w)
        | Normal _ => (Normal (JStr "GLOBAL", JUndefined), fetched w)
        end
    end.
Proof. intros Hregion Hsettings. now apply detectRegionalSettings_run. Qed.

Lemma detectRegionalSettings_always_global_witness :
  detectRegionalSettings flaky_service plain_platform (JStr "zu-ZA")
    (fetched (fetched fresh_world))
    = (Normal (JStr "GLOBAL", JUndefined),
       fetched (fetched (fetched fresh_world))).
Proof.
  rewrite (detectRegionalSettings_always_global flaky_service plain_platform
             (JStr "zu-ZA") (fetched (fetched fresh_world)));
    reflexivity.
Defined.

(** X13. On such a platform [init] never completes: it rejects for every
    language, every manager, every behaviour of the network and of the
    analytics service, after at most two fetches. When the detection
    request is answered, the holidays are then requested for the region
    ['GLOBAL']; the call ends in what that load threw, if its [catch]
    clause threw, and else in the [TypeError] of reading [locale] off the
    undefined settings. *)
Theorem init_never_completes
    (rt : Runtime) (analytics : error -> completion unit) (pf : Platform)
    (this : CulturalManager) (lang : value) (w : World) :
  (forall r, Response_member pf r "region" = JUndefined) ->
  (forall r, Response_member pf r "settings" = JUndefined) ->
  (exists e, fst (init rt analytics pf this lang w) = Throw e) /\
  (fetch_calls (snd (init rt analytics pf this lang w))
     <= fetch_calls w + 2)%nat /\
  (forall body response,
     JSON_stringify rt (JObj {["language" := lang]}) = Normal body ->
     fetch_reply rt (fetch_calls w) "/api/region-detection"
       (detection_init body) = Normal response ->
     init rt analytics pf this lang w
       = without_settings
           (load_outcome analytics (undetected this) (fetched w)
              (holiday_answer rt (undetected this) (fetched w)))).
Proof.
  intros Hregion Hsettings.
  rewrite (init_run rt pf Hregion Hsettings analytics).
  destruct (JSON_stringify rt _) as [body | e].
  - destruct (fetch_reply rt (fetch_calls w) _ (detection_init body))
      as [response | e] eqn:Hreply.
    + assert (exists e w',
                without_settings
                  (load_outcome analytics (undetected this) (fetched w)
                     (holiday_answer rt (undetected this) (fetched w)))
                  = (Throw e, w') /\
                fetch_calls w' = S (S (fetch_calls w))) as (e & w' & Hends & Hcalls).
      { unfold load_outcome.
        destruct (holiday_answer rt (undetected this) (fetched w))
          as [parsed | e]; [| destruct (analytics e)]; simpl; eauto. }
      rewrite Hends. simpl. split; [eauto |]. split; [lia |].
      intros body' response' Hbody Hanswer. reflexivity.
    + split; [eauto |]. split; [unfold fetched; simpl; lia |].
      intros body' response' Hbody Hanswer.
      injection Hbody as <-. congruence.
  - split; [eauto |]. split; [simpl; lia |].
    intros body response Hbody. discriminate.
Qed.

Lemma init_never_completes_witness :
  init not_found_service recording plain_platform CulturalManager_new
    (JStr "zu-ZA") fresh_world
    = (Throw (TypeError
         "Cannot read properties of undefined (reading 'locale')"),
       fetched (fetched fresh_world)) /\
  init fading_service uninitialised plain_platform CulturalManager_new
    (JStr "zu-ZA") fresh_world
    = (Throw RLG_uninitialised, fetched (fetched fresh_world)).
Proof.
  split.
  - destruct (init_never_completes not_found_service recording plain_platform
                CulturalManager_new (JStr "zu-ZA") fresh_world)
      as (_ & _ & Hanswered); [reflexivity | reflexivity |].
    rewrite (Hanswered (JStr "{}")
               (mkResponse false (Normal not_found_body)));
      reflexivity.
  - destruct (init_never_completes fading_service uninitialised plain_platform
                CulturalManager_new (JStr "zu-ZA") fresh_world)
      as (_ & _ & Hanswered); [reflexivity | reflexivity |].
    rewrite (Hanswered (JStr "{}") pong); reflexivity.
Defined.

(** ** CulturalManager.loadHolidayData and translate: edges *)

(** X14. [loadHolidayData] does not look at the status of the response:
    a body that parses becomes the holiday list also when the response
    has [ok = false], so the JSON body of an error page replaces the list
    held before. The call issues exactly one fetch, reports nothing and
    keeps the region and the settings. *)
Theorem loadHolidayData_ignores_status
    (rt : Runtime) (analytics : error -> completion unit)
    (this : CulturalManager) (w : World)
    (response : Response) (parsed : value) :
  fetch_reply rt (fetch_calls w)
    (holidays_url (clock_year w) (currentRegion this)) ∅ = Normal response ->
  json response = Normal parsed ->
  loadHolidayData rt analytics this w
    = (Normal (mkCulturalManager (currentRegion this) (localeSettings this)
                 parsed),
       fetched w).
Proof.
  intros Hreply Hjson. rewrite loadHolidayData_run.
  unfold holiday_answer. now rewrite Hreply, Hjson.
Qed.

Lemma loadHolidayData_ignores_status_witness :
  ok (mkResponse false (Normal not_found_body)) = false /\
  loadHolidayData not_found_service uninitialised south_africa_loaded
    fresh_world
    = (Normal (mkCulturalManager "ZA" (localeSettings south_africa_loaded)
                 not_found_body),
       fetched fresh_world).
Proof.
  split; [reflexivity |].
  apply (loadHolidayData_ignores_status not_found_service uninitialised
           south_africa_loaded
           fresh_world (mkResponse false (Normal not_found_body))
           not_found_body);
    reflexivity.
Defined.

(** X15. [translate] throws exactly when there is no table to index:
    when the settings are undefined or carry no [translations]. Whenever
    it returns, the result is truthy, except for the empty key, which
    can only come back as itself. *)
Theorem translate_throws_without_table
    (this : CulturalManager) (key : string) :
  ((exists e, translate this key = Throw e) <->
   (localeSettings this = None \/
    exists settings,
      localeSettings this = Some settings /\ translations settings = None))
  /\
  (forall v, translate this key = Normal v ->
     ToBoolean v = true \/ (key = "" /\ v = JStr "")).
Proof.
  unfold translate. split; [split |].
  - intros [e He].
    destruct (localeSettings this) as [settings |]; [| now left].
    right. exists settings. split; [reflexivity |].
    now destruct (translations settings).
  - intros [Hnone | (settings & Hsome & Htable)].
    + rewrite Hnone. eauto.
    + rewrite Hsome, Htable. eauto.
  - intros v Hv.
    destruct (localeSettings this) as [settings |]; [| discriminate].
    destruct (translations settings) as [table |]; [| discriminate].
    injection Hv as <-. unfold JS.or.
    destruct (ToBoolean (Get table key)) eqn:Htruthy; [now left |].
    simpl. destruct (String.eqb_spec key "") as [-> | Hne].
    + right. split; reflexivity.
    + now left.
Qed.

(** ** UIManager.renderData *)

(** X16. A component is loaded once: when its type is not yet in
    [components] and its module imports and constructs, [renderData]
    stores the new component under the type and renders with it; from
    then on [renderData] for that type renders with the stored component
    and neither imports nor reports anything, whatever the platform's
    importer would answer. *)
Theorem renderData_loads_once
    (analytics : error -> completion unit)
    (pf : Platform) (type : string) (data data' : value)
    (components : gmap string value) (w : World) (module component : value) :
  components !! type = None ->
  import_module pf ("/components/" +:+ type +:+ ".js") = Normal module ->
  construct_default pf module = Normal component ->
  renderData analytics pf type data components w
    = ((render_component pf component data,
        <[type := component]> components), w) /\
  forall pf' : Platform,
    render_component pf' = render_component pf ->
    renderData analytics pf' type data' (<[type := component]> components)
      w
      = ((render_component pf component data',
          <[type := component]> components), w).
Proof.
  intros Hmissing Himport Hconstruct. split.
  - unfold renderData, loadComponent.
    rewrite Hmissing, Himport, Hconstruct, lookup_insert_eq. reflexivity.
  - intros pf' Hrender. unfold renderData.
    rewrite lookup_insert_eq. simpl.
    rewrite lookup_insert_eq, Hrender. reflexivity.
Qed.

Lemma renderData_loads_once_witness :
  renderData uninitialised component_platform "gantt" (JStr "sprint 1") ∅
    fresh_world
    = ((Normal tt,
        {["gantt" :=
            JObj {["module" :=
                     JObj {["default" := JFun "/components/gantt.js"]}]}]}),
       fresh_world) /\
  renderData uninitialised plain_platform "gantt" (JStr "sprint 2")
    {["gantt" :=
        JObj {["module" :=
                 JObj {["default" := JFun "/components/gantt.js"]}]}]}
    fresh_world
    = ((Normal tt,
        {["gantt" :=
            JObj {["module" :=
                     JObj {["default" := JFun "/components/gantt.js"]}]}]}),
       fresh_world).
Proof.
  destruct (renderData_loads_once uninitialised component_platform "gantt"
              (JStr "sprint 1") (JStr "sprint 2") ∅ fresh_world
              (JObj {["default" := JFun "/components/gantt.js"]})
              (JObj {["module" :=
                        JObj {["default" := JFun "/components/gantt.js"]}]}))
    as [Hfirst Hlater]; [reflexivity | reflexivity | reflexivity |].
  split.
  - exact Hfirst.
  - exact (Hlater plain_platform eq_refl).
Defined.

(** X17. When the component's type is not in [components] and its module
    fails to import, or its constructor throws, [renderData] leaves
    [components] as it was, so the failed load is not remembered, and
    hands the error to analytics. When that call returns, the error is on
    record once and [renderData] throws a [TypeError] of its own, for
    reading [render] off [undefined]; when that call throws, as it does
    while [RLG] is uninitialised, [renderData] throws what it threw and
    nothing is on record. *)
Theorem renderData_load_failure
    (analytics : error -> completion unit)
    (pf : Platform) (type : string) (data : value)
    (components : gmap string value) (w : World) (e : error) :
  components !! type = None ->
  (import_module pf ("/components/" +:+ type +:+ ".js") = Throw e \/
   exists module,
     import_module pf ("/components/" +:+ type +:+ ".js") = Normal module /\
     construct_default pf module = Throw e) ->
  renderData analytics pf type data components w
    = match analytics e with
      | Normal _ =>
          ((Throw (TypeError
              "Cannot read properties of undefined (reading 'render')"),
            components),
           mkWorld (clock_year w) (fetch_calls w) (tracked w ++ [e])
             (timers w))
      | Throw thrown => ((Throw thrown, components), w)
      end.
Proof.
  intros Hmissing [Himport | (module & Himport & Hconstruct)];
    unfold renderData, loadComponent, trackError;
    rewrite Hmissing, Himport; [| rewrite Hconstruct];
    destruct (analytics e); simpl; try reflexivity;
    now rewrite Hmissing.
Qed.

Lemma renderData_load_failure_witness :
  renderData recording plain_platform "gantt" (JStr "sprint 1") ∅ fresh_world
    = ((Throw (TypeError
          "Cannot read properties of undefined (reading 'render')"), ∅),
       mkWorld 2026 0
         [TypeError "Failed to fetch dynamically imported module"] []) /\
  renderData uninitialised plain_platform "gantt" (JStr "sprint 1") ∅
    fresh_world
    = ((Throw RLG_uninitialised, ∅), fresh_world).
Proof.
  split.
  - apply (renderData_load_failure recording plain_platform "gantt"
             (JStr "sprint 1") ∅ fresh_world
             (TypeError "Failed to fetch dynamically imported module")).
    + reflexivity.
    + left. reflexivity.
  - apply (renderData_load_failure uninitialised plain_platform "gantt"
             (JStr "sprint 1") ∅ fresh_world
             (TypeError "Failed to fetch dynamically imported module")).
    + reflexivity.
    + left. reflexivity.
Defined.

(** ** memoize *)

Section MemoizeProperties.

Variable fn : list value -> completion value.
Variable key_of : list value -> completion string.

Lemma memoized_sound (seen : list (list value)) (args : list value)
    (cache : gmap string value) :
  cache_sound fn key_of seen cache ->
  cache_sound fn key_of (seen ++ [args]) (snd (memoized fn key_of args cache)).
Proof.
  intros Hsound key v. unfold memoized.
  assert (forall cache', cache' = cache -> cache' !! key = Some v ->
          exists a, In a (seen ++ [args]) /\ key_of a = Normal key /\
                    fn a = Normal v) as Hold.
  { intros cache' -> Hlook.
    destruct (Hsound key v Hlook) as (a & Hin & Hk & Hf).
    exists a. split; [apply in_or_app; now left | now split]. }
  destruct (key_of args) as [k |] eqn:Hkey; simpl; [| now apply Hold].
  destruct (cache !! k) as [hit |] eqn:Hhit; simpl; [now apply Hold |].
  destruct (fn args) as [res |] eqn:Hfn; simpl; [| now apply Hold].
  intros Hlook. destruct (decide (k = key)) as [-> | Hne].
  - rewrite lookup_insert_eq in Hlook. injection Hlook as <-.
    exists args. split; [apply in_or_app; right; now left | now split].
  - rewrite lookup_insert_ne in Hlook by assumption. now apply (Hold cache).
Qed.

Lemma memoized_calls_agree (calls : list (list value)) :
  forall (seen : list (list value)) (cache : gmap string value),
    cache_sound fn key_of seen cache ->
    (forall a b key,
       In a (seen ++ calls) -> In b (seen ++ calls) ->
       key_of a = Normal key -> key_of b = Normal key -> a = b) ->
    fst (memoized_calls fn key_of calls cache)
      = map (unmemoized fn key_of) calls.
Proof.
  induction calls as [| args rest IH]; intros seen cache Hsound Hinj;
    simpl; [reflexivity |].
  pose proof (memoized_sound seen args cache Hsound) as Hnext.
  assert (fst (memoized fn key_of args cache) = unmemoized fn key_of args)
    as Hhead.
  { unfold memoized, unmemoized.
    destruct (key_of args) as [k |] eqn:Hkey; [| reflexivity].
    destruct (cache !! k) as [hit |] eqn:Hhit;
      [| now destruct (fn args)].
    destruct (Hsound k hit Hhit) as (a & Hin & Hk & Hf).
    assert (a = args) as ->.
    { apply (Hinj a args k); try assumption.
      - apply in_or_app. now left.
      - apply in_or_app. right. now left. }
    now rewrite Hf. }
  destruct (memoized fn key_of args cache) as [c cache'].
  simpl in Hhead, Hnext.
  specialize (IH (seen ++ [args])%list cache' Hnext).
  destruct (memoized_calls fn key_of rest cache') as [cs final].
  simpl in *. rewrite Hhead, IH; [reflexivity |].
  intros a b key Ha Hb. rewrite <- app_assoc in Ha, Hb. simpl in Ha, Hb.
  now apply Hinj.
Qed.

End MemoizeProperties.

(** X18. [memoize(fn)] agrees with [fn] as long as the serialised keys
    tell the calls apart: for a sequence of calls on a fresh cache in
    which two calls with the same key have the same arguments, every call
    gives what [fn] gives for its arguments (or the serialiser's error),
    results of [undefined] included. *)
Theorem memoize_agrees_when_keys_distinguish
    (fn : list value -> completion value)
    (key_of : list value -> completion string)
    (calls : list (list value)) :
  (forall a b key,
     In a calls -> In b calls ->
     key_of a = Normal key -> key_of b = Normal key -> a = b) ->
  fst (memoized_calls fn key_of calls ∅) = map (unmemoized fn key_of) calls.
Proof.
  intros Hinj. apply (memoized_calls_agree fn key_of calls []).
  - intros key v Hlook. rewrite lookup_empty in Hlook. discriminate.
  - exact Hinj.
Qed.

Lemma memoize_agrees_when_keys_distinguish_witness :
  fst (memoized_calls first_argument key_by_length
         [[JStr "a"]; []; [JStr "a"]] ∅)
    = [Normal (JStr "a"); Normal JUndefined; Normal (JStr "a")].
Proof.
  rewrite (memoize_agrees_when_keys_distinguish first_argument key_by_length
             [[JStr "a"]; []; [JStr "a"]]); [reflexivity |].
  intros a b key Ha Hb Hka Hkb. simpl in Ha, Hb.
  destruct Ha as [<- | [<- | [<- | []]]];
    destruct Hb as [<- | [<- | [<- | []]]];
    try reflexivity;
    vm_compute in Hka, Hkb; congruence.
Defined.

(** X19. Two argument lists with the same serialised key share one cache
    entry: once a call with the first has stored a result, a call with
    the second returns that stored result and [fn] is not applied to the
    second list at all, whatever it would return or throw there. *)
Theorem memoize_key_collision
    (fn fn' : list value -> completion value)
    (key_of : list value -> completion string)
    (a b : list value) (key : string) (v : value)
    (cache : gmap string value) :
  key_of a = Normal key ->
  key_of b = Normal key ->
  cache !! key = None ->
  fn a = Normal v ->
  memoized fn' key_of b (snd (memoized fn key_of a cache))
    = (Normal v, <[key := v]> cache).
Proof.
  intros Ha Hb Hfresh Hfn. unfold memoized.
  rewrite Ha, Hfresh, Hfn. simpl. now rewrite Hb, lookup_insert_eq.
Qed.

Lemma memoize_key_collision_witness :
  memoized (fun _ => Throw cyclic_error) key_by_length [JNull]
    (snd (memoized first_argument key_by_length [JStr "a"] ∅))
    = (Normal (JStr "a"), {["1" := JStr "a"]}).
Proof.
  apply (memoize_key_collision first_argument (fun _ => Throw cyclic_error)
           key_by_length [JStr "a"] [JNull] "1" (JStr "a") ∅);
    reflexivity.
Defined.
